(** * Train detector: the persistent event log of the Arduino sketch

    A shallow embedding of [traindetector.ino] (EEPROM layout, the big-endian
    long codec [writeLong]/[readLong], [setup], [handleSensor], [handleTimer],
    [loop], [clearMemory] and [printMemoryStatus]) and of the counter helpers
    of its Digispark variant, with the properties of the event log stated over
    it.

    The sketches are built for AVR boards (the variants include
    [DigiKeyboard.h] and the AVR [EEPROM.h], whose [EEPROM.begin()] takes no
    argument): [int] is 16 bits wide, [long] is 32 bits wide, both two's
    complement, and avr-gcc wraps on conversion to a narrower signed type. *)

From Stdlib Require Import ZArith Lia Bool.
From stdpp Require Import base option list.

Local Open Scope Z_scope.

(** ** Machine integers *)

Module Cint.

(** The two's complement value of [z] in a signed type of [bits] bits. *)
Definition wrap (bits z : Z) : Z :=
  (z + 2 ^ (bits - 1)) mod 2 ^ bits - 2 ^ (bits - 1).

Definition int_bits : Z := 16.
Definition long_bits : Z := 32.

Definition INT_MAX : Z := 2 ^ (int_bits - 1) - 1.
Definition LONG_MIN : Z := - 2 ^ (long_bits - 1).
Definition LONG_MAX : Z := 2 ^ (long_bits - 1) - 1.

(** Conversions: [(int) z], [(long) z], [(unsigned long) z], [(uint8_t) z]. *)
Definition to_int (z : Z) : Z := wrap int_bits z.
Definition to_long (z : Z) : Z := wrap long_bits z.
Definition to_ulong (z : Z) : Z := z mod 2 ^ long_bits.
Definition to_uint8 (z : Z) : Z := z mod 2 ^ 8.

Definition int_range (z : Z) : Prop := - 2 ^ (int_bits - 1) <= z <= INT_MAX.
Definition long_range (z : Z) : Prop := LONG_MIN <= z <= LONG_MAX.

(** [x + y] and [x << n] evaluated in [long]. *)
Definition long_add (x y : Z) : Z := to_long (x + y).
Definition long_shl (x n : Z) : Z := to_long (Z.shiftl x n).

(** [x + y] evaluated in [int]. *)
Definition int_add (x y : Z) : Z := to_int (x + y).

End Cint.
Import Cint.

#[global] Arguments wrap : simpl never.
#[global] Arguments to_int : simpl never.
#[global] Arguments to_long : simpl never.
#[global] Arguments to_ulong : simpl never.
#[global] Arguments to_uint8 : simpl never.
#[global] Arguments long_add : simpl never.
#[global] Arguments long_shl : simpl never.
#[global] Arguments int_add : simpl never.

(** Addresses of a long whose four byte addresses narrow to themselves
    whenever their [int] value is not negative: every [int], and every [int]
    plus a small offset. *)
Definition int_reach (z : Z) : Prop :=
  - 2 ^ (int_bits - 1) <= z <= 2 ^ int_bits - 4.

(** ** Results of code that touches the EEPROM

    The storage adapter raises nothing itself; an access outside the device is
    a violation of its contract.  [OutOfRange address] records the first such
    access of a piece of code, with the address, as an [int], it passed to the
    library; what the board does from there on is not described. *)

Inductive outcome (A : Type) : Type :=
| Done (a : A)
| OutOfRange (address : Z).
Arguments Done {A} a.
Arguments OutOfRange {A} address.

#[export] Instance outcome_ret : MRet outcome := fun A a => Done a.
#[export] Instance outcome_bind : MBind outcome := fun A B f m =>
  match m with
  | Done a => f a
  | OutOfRange address => OutOfRange address
  end.

(** ** The EEPROM device *)

(** [cells] are the bytes of the device; [journal] lists the calls of
    [EEPROM.write] made so far, oldest first, as (address, byte). *)
Record EEPROMClass : Type := {
  cells : list Z;
  journal : list (Z * Z)
}.

(** [EEPROM.length()].  The library takes the index of a cell as an [int]:
    the device is made of the cells an [int] index reaches, at most
    [INT_MAX + 1] of them. *)
Definition EEPROM_length (e : EEPROMClass) : Z :=
  Z.min (Z.of_nat (length (cells e))) (INT_MAX + 1).

Definition in_device (e : EEPROMClass) (idx : Z) : bool :=
  (0 <=? idx) && (idx <? EEPROM_length e).

(** [EEPROM.read(int idx)]: whatever integer the caller passes is first
    narrowed to the [int] parameter. *)
Definition EEPROM_read (e : EEPROMClass) (idx : Z) : outcome Z :=
  let idx := to_int idx in
  if in_device e idx then
    match cells e !! Z.to_nat idx with
    | Some b => Done b
    | None => OutOfRange idx
    end
  else OutOfRange idx.

(** The device after byte [val] went into cell [idx]. *)
Definition put_byte (e : EEPROMClass) (idx val : Z) : EEPROMClass :=
  {| cells := <[Z.to_nat idx := val]> (cells e);
     journal := journal e ++ [(idx, val)] |}.

(** [EEPROM.write(int idx, uint8_t val)]: the index is narrowed to [int],
    the value to [uint8_t]. *)
Definition EEPROM_write (e : EEPROMClass) (idx val : Z) : outcome EEPROMClass :=
  let idx := to_int idx in
  if in_device e idx then Done (put_byte e idx (to_uint8 val))
  else OutOfRange idx.

(** ** Big-endian long codec *)

(** [void writeLong(long address, long number)]; each [long] address is
    narrowed to [int] by [EEPROM.write]. *)
Definition writeLong (e : EEPROMClass) (address number : Z) : outcome EEPROMClass :=
  e ← EEPROM_write e address (Z.land (Z.shiftr number 24) 255);
  e ← EEPROM_write e (address + 1) (Z.land (Z.shiftr number 16) 255);
  e ← EEPROM_write e (address + 2) (Z.land (Z.shiftr number 8) 255);
  EEPROM_write e (address + 3) (Z.land number 255).

(** [long readLong(long address)]; each [long] address is narrowed to [int]
    by [EEPROM.read]. *)
Definition readLong (e : EEPROMClass) (address : Z) : outcome Z :=
  b0 ← EEPROM_read e address;
  b1 ← EEPROM_read e (address + 1);
  b2 ← EEPROM_read e (address + 2);
  b3 ← EEPROM_read e (address + 3);
  mret (long_add (long_add (long_add (long_shl b0 24) (long_shl b1 16))
                           (long_shl b2 8)) b3).

(** The four bytes [writeLong] stores for [number], lowest address first. *)
Definition encodeLong (number : Z) : list Z :=
  [Z.land (Z.shiftr number 24) 255; Z.land (Z.shiftr number 16) 255;
   Z.land (Z.shiftr number 8) 255; Z.land number 255].

(** The calls of [EEPROM.write] one [writeLong address number] makes, for an
    [address] that is an [int]. *)
Definition writeLong_calls (address number : Z) : list (Z * Z) :=
  [(address, Z.land (Z.shiftr number 24) 255);
   (address + 1, Z.land (Z.shiftr number 16) 255);
   (address + 2, Z.land (Z.shiftr number 8) 255);
   (address + 3, Z.land number 255)].

(** ** The sketch [traindetector.ino] *)

(** Macros of the sketch. *)
Definition second : Z := 1000.
Definition threadDelay : Z := 50.
Definition eventsDelay : Z := (second ÷ threadDelay) * 60.
Definition counterIncreaseRatio : Z := (second ÷ threadDelay) * 1.
Definition secondsCounterAddress : Z := 0.
Definition eventIndexAddress : Z := 4.

(** [int eventAddressStep = 4], never assigned. *)
Definition eventAddressStep : Z := 4.

(** The global variables of the sketch, and the EEPROM it drives.
    [secondsCounter] is a [long]; [timer], [memorySize], [eventAddress] and
    [eventTime] are [int]. *)
Record Sketch : Type := {
  secondsCounter : Z;
  timer : Z;
  memorySize : Z;
  eventAddress : Z;
  isReadOnly : bool;
  hasEvent : bool;
  eventTime : Z;
  EEPROM : EEPROMClass
}.

Definition set_secondsCounter (v : Z) (st : Sketch) : Sketch :=
  {| secondsCounter := v; timer := timer st; memorySize := memorySize st;
     eventAddress := eventAddress st; isReadOnly := isReadOnly st;
     hasEvent := hasEvent st; eventTime := eventTime st; EEPROM := EEPROM st |}.

Definition set_timer (v : Z) (st : Sketch) : Sketch :=
  {| secondsCounter := secondsCounter st; timer := v; memorySize := memorySize st;
     eventAddress := eventAddress st; isReadOnly := isReadOnly st;
     hasEvent := hasEvent st; eventTime := eventTime st; EEPROM := EEPROM st |}.

Definition set_memorySize (v : Z) (st : Sketch) : Sketch :=
  {| secondsCounter := secondsCounter st; timer := timer st; memorySize := v;
     eventAddress := eventAddress st; isReadOnly := isReadOnly st;
     hasEvent := hasEvent st; eventTime := eventTime st; EEPROM := EEPROM st |}.

Definition set_eventAddress (v : Z) (st : Sketch) : Sketch :=
  {| secondsCounter := secondsCounter st; timer := timer st; memorySize := memorySize st;
     eventAddress := v; isReadOnly := isReadOnly st;
     hasEvent := hasEvent st; eventTime := eventTime st; EEPROM := EEPROM st |}.

Definition set_isReadOnly (v : bool) (st : Sketch) : Sketch :=
  {| secondsCounter := secondsCounter st; timer := timer st; memorySize := memorySize st;
     eventAddress := eventAddress st; isReadOnly := v;
     hasEvent := hasEvent st; eventTime := eventTime st; EEPROM := EEPROM st |}.

Definition set_hasEvent (v : bool) (st : Sketch) : Sketch :=
  {| secondsCounter := secondsCounter st; timer := timer st; memorySize := memorySize st;
     eventAddress := eventAddress st; isReadOnly := isReadOnly st;
     hasEvent := v; eventTime := eventTime st; EEPROM := EEPROM st |}.

Definition set_eventTime (v : Z) (st : Sketch) : Sketch :=
  {| secondsCounter := secondsCounter st; timer := timer st; memorySize := memorySize st;
     eventAddress := eventAddress st; isReadOnly := isReadOnly st;
     hasEvent := hasEvent st; eventTime := v; EEPROM := EEPROM st |}.

Definition set_EEPROM (e : EEPROMClass) (st : Sketch) : Sketch :=
  {| secondsCounter := secondsCounter st; timer := timer st; memorySize := memorySize st;
     eventAddress := eventAddress st; isReadOnly := isReadOnly st;
     hasEvent := hasEvent st; eventTime := eventTime st; EEPROM := e |}.

(** The initialisers of the globals, over the device found at power-on. *)
Definition power_on (e : EEPROMClass) : Sketch :=
  {| secondsCounter := 0; timer := 0; memorySize := 0; eventAddress := 8;
     isReadOnly := false; hasEvent := false; eventTime := 0; EEPROM := e |}.

(** What the sketch prints on the serial port inside [loop]. *)
Inductive SerialLine : Type :=
| READ_ONLY_MODE
| MEMORY_IS_FULL
| EventOccurred (at_seconds written_to : Z)
| Timestamp (seconds : Z).

(** Lines 55-59 of [setup]; the variants name them [initializeEventAddress].
    [readLong] yields a [long] that is stored into the [int] [eventAddress];
    the write-back passes [eventAddress] before it is reassigned. *)
Definition initializeEventAddress (st : Sketch) : outcome Sketch :=
  v ← readLong (EEPROM st) eventIndexAddress;
  let st := set_eventAddress (to_int v) st in
  if eventAddress st <=? 0 then
    e ← writeLong (EEPROM st) eventIndexAddress (eventAddress st);
    mret (set_eventAddress eventIndexAddress (set_EEPROM e st))
  else mret st.

(** What [printMemoryStatus] prints after its heading: a line per slot, and
    the dots it ends with when it breaks off. *)
Inductive DumpLine : Type :=
| Slot (address value : Z)
| Ellipsis.

(** The [for] loop of [printMemoryStatus()], from [long i] and [int zeroCount]
    on. *)
Fixpoint printMemoryStatus_loop (fuel : nat) (e : EEPROMClass) (i zeroCount : Z)
  : option (outcome (list DumpLine)) :=
  match fuel with
  | O => None
  | S fuel' =>
    if i <? EEPROM_length e then
      match readLong e i with
      | Done value =>
        let zeroCount :=
          if value =? 0 then int_add zeroCount 1 else int_add zeroCount (-1) in
        if 4 <? zeroCount then Some (Done [Slot i value; Ellipsis])
        else
          match printMemoryStatus_loop fuel' e (long_add i 4) zeroCount with
          | Some (Done lines) => Some (Done (Slot i value :: lines))
          | other => other
          end
      | OutOfRange address => Some (OutOfRange address)
      end
    else Some (Done [])
  end.

(** [printMemoryStatus()] *)
Definition printMemoryStatus (e : EEPROMClass) : option (outcome (list DumpLine)) :=
  printMemoryStatus_loop (S (length (cells e))) e 0 0.

(** [setup()]; [readOnlySwitch] is [digitalRead(readOnlySwitch) == HIGH].
    With the switch high the sketch prints a banner, which reads globals only,
    and calls [printMemoryStatus], which reads the device; the loop of the
    dump cannot run out of fuel (see [printMemoryStatus_terminates]). *)
Definition setup (readOnlySwitch : bool) (e : EEPROMClass) : outcome Sketch :=
  let st := power_on e in
  let st := set_memorySize (to_int (EEPROM_length (EEPROM st))) st in
  st ← initializeEventAddress st;
  v ← readLong (EEPROM st) secondsCounterAddress;
  let st := set_secondsCounter v st in
  let st := if secondsCounter st <=? 0 then set_secondsCounter 0 st else st in
  if readOnlySwitch then
    let st := set_isReadOnly true st in
    match printMemoryStatus (EEPROM st) with
    | Some (OutOfRange address) => OutOfRange address
    | _ => mret st
    end
  else mret st.

(** [isMemoryFull()] *)
Definition isMemoryFull (st : Sketch) : bool := memorySize st <? eventAddress st.

(** [handleSensor()]; [sensorPin] is [digitalRead(sensorPin) == HIGH]. *)
Definition handleSensor (sensorPin : bool) (st : Sketch)
  : outcome (list SerialLine * Sketch) :=
  '(out, st) ←
    (if negb (hasEvent st) && sensorPin then
       let st := set_hasEvent true st in
       let st := set_eventTime 0 st in
       let st := set_eventAddress (int_add (eventAddress st) eventAddressStep) st in
       e ← writeLong (EEPROM st) (eventAddress st) (secondsCounter st);
       e ← writeLong e eventIndexAddress (eventAddress st);
       mret ([EventOccurred (secondsCounter st) (eventAddress st)], set_EEPROM e st)
     else mret ([], st));
  mret (out,
        if hasEvent st then
          let st := set_eventTime (int_add (eventTime st) 1) st in
          if eventsDelay <? eventTime st then set_hasEvent false st else st
        else st).

(** [handleTimer()] *)
Definition handleTimer (st : Sketch) : outcome (list SerialLine * Sketch) :=
  let st := set_timer (int_add (timer st) 1) st in
  if counterIncreaseRatio <=? timer st then
    let st := set_timer 0 st in
    let st := set_secondsCounter (long_add (secondsCounter st) 1) st in
    e ← writeLong (EEPROM st) secondsCounterAddress (secondsCounter st);
    mret ([Timestamp (secondsCounter st)], set_EEPROM e st)
  else mret ([], st).

(** One pass of [loop()]; [handleStatusLed] only drives the LED. *)
Definition loop (sensorPin : bool) (st : Sketch)
  : outcome (list SerialLine * Sketch) :=
  if isReadOnly st then mret ([READ_ONLY_MODE], st)
  else if isMemoryFull st then mret ([MEMORY_IS_FULL], st)
  else
    '(out1, st) ← handleSensor sensorPin st;
    '(out2, st) ← handleTimer st;
    mret (out1 ++ out2, st).

(** The polling loop over the successive readings of the sensor pin: the
    serial output of every completed pass, and the state it ends in. *)
Fixpoint run (st : Sketch) (pins : list bool)
  : list (list SerialLine) * outcome Sketch :=
  match pins with
  | [] => ([], Done st)
  | p :: pins' =>
    match loop p st with
    | Done (out, st') => let r := run st' pins' in (out :: r.1, r.2)
    | OutOfRange address => ([], OutOfRange address)
    end
  end.

(** [n] successive calls of [handleTimer]. *)
Fixpoint handleTimer_times (n : nat) (st : Sketch) : outcome Sketch :=
  match n with
  | O => Done st
  | S n' => '(_, st') ← handleTimer st; handleTimer_times n' st'
  end.

(** ** Observations *)

(** The events a piece of serial output reports: (seconds, address). *)
Definition event_of (l : SerialLine) : option (Z * Z) :=
  match l with
  | EventOccurred t a => Some (t, a)
  | _ => None
  end.

Definition events (out : list SerialLine) : list (Z * Z) := omap event_of out.

(** Number of events recorded during the passes [outs]. *)
Definition pulses (outs : list (list SerialLine)) : nat :=
  length (events (concat outs)).

(** The record slots behind the index: [k] addresses from [first], step 4. *)
Fixpoint slots (first : Z) (k : nat) : list Z :=
  match k with
  | O => []
  | S k' => first :: slots (first + eventAddressStep) k'
  end.

(** All calls of [EEPROM.write] in a journal address the device. *)
Definition journal_in_device (e : EEPROMClass) : Prop :=
  Forall (fun w => 0 <= w.1 < EEPROM_length e) (journal e).

(** The order of the two writes of an append as the specification words it:
    the new pointer to the index offset first, the seconds counter to the new
    pointer address afterwards. *)
Definition appendEvent_spec_calls (st : Sketch) : list (Z * Z) :=
  let pointer := eventAddress st + eventAddressStep in
  writeLong_calls eventIndexAddress pointer
  ++ writeLong_calls pointer (secondsCounter st).

(** The order of the sketch: the seconds counter first, the index afterwards. *)
Definition handleSensor_calls (st : Sketch) : list (Z * Z) :=
  let pointer := eventAddress st + eventAddressStep in
  writeLong_calls pointer (secondsCounter st)
  ++ writeLong_calls eventIndexAddress pointer.

(** Well-formed globals: every variable holds a value of its type, the timer
    is below its reload value and the index lies behind the index slot. *)
Record wf (st : Sketch) : Prop := {
  wf_secondsCounter : long_range (secondsCounter st);
  wf_timer : 0 <= timer st < counterIncreaseRatio;
  wf_eventAddress : eventIndexAddress <= eventAddress st <= INT_MAX;
  wf_memorySize : memorySize st = EEPROM_length (EEPROM st);
  wf_memorySize_int : memorySize st <= INT_MAX
}.

(** The second statement of [handleSensor] on its own: the cooldown count. *)
Definition cooldown (st : Sketch) : Sketch :=
  if hasEvent st then
    let st := set_eventTime (int_add (eventTime st) 1) st in
    if eventsDelay <? eventTime st then set_hasEvent false st else st
  else st.

(** The globals right after the first statement of [handleSensor] recorded an
    event and left the device as [e]. *)
Definition recorded (e : EEPROMClass) (st : Sketch) : Sketch :=
  set_EEPROM e
    (set_eventAddress (int_add (eventAddress st) eventAddressStep)
       (set_eventTime 0 (set_hasEvent true st))).

(** ** The Digispark variant with [millis()] timing

    Its [secondsCounter] is an [unsigned long]; the start-up helper writes the
    reset value back. *)
Module Digispark.

(** [void initializeSecondsCounter()] *)
Definition initializeSecondsCounter (st : Sketch) : outcome Sketch :=
  v ← readLong (EEPROM st) secondsCounterAddress;
  let st := set_secondsCounter (to_ulong v) st in
  if secondsCounter st <=? 0 then
    e ← writeLong (EEPROM st) secondsCounterAddress 0;
    mret (set_secondsCounter 0 (set_EEPROM e st))
  else mret st.

End Digispark.

(** ** Devices used in the examples *)

(** A device of [n] bytes, every byte [b], nothing written yet. *)
Definition device (n b : Z) : EEPROMClass :=
  {| cells := replicate (Z.to_nat n) b; journal := [] |}.

(** A device of [n] bytes whose first eight hold [counter] and [index], big
    endian, the others 0. *)
Definition device_with (n counter index : Z) : EEPROMClass :=
  {| cells := encodeLong counter ++ encodeLong index
              ++ replicate (Z.to_nat (n - 8)) 0;
     journal := [] |}.

(** The sensor pin held at one level for [n] passes of [loop]. *)
Definition held (level : bool) (n : Z) : list bool := replicate (Z.to_nat n) level.

(** ** The maintenance routine [clearMemory] *)

(** [(unsigned int) z]: how an [int] compares against the [uint16_t] that
    [EEPROM.length()] returns. *)
Definition to_uint (z : Z) : Z := z mod 2 ^ int_bits.

(** The [for] loop of [clearMemory()], from [int i] on; [fuel] bounds the
    number of iterations, [None] is "fuel exhausted". *)
Fixpoint clearMemory_loop (fuel : nat) (i : Z) (e : EEPROMClass)
  : option (outcome EEPROMClass) :=
  match fuel with
  | O => None
  | S fuel' =>
    if to_uint i <? EEPROM_length e then
      match EEPROM_write e i 0 with
      | Done e' => clearMemory_loop fuel' (int_add i 1) e'
      | OutOfRange address => Some (OutOfRange address)
      end
    else Some (Done e)
  end.

(** [clearMemory()] *)
Definition clearMemory (e : EEPROMClass) : option (outcome EEPROMClass) :=
  clearMemory_loop (S (length (cells e))) 0 e.

(** The addresses of the slot lines of a dump. *)
Definition dump_addresses (lines : list DumpLine) : list Z :=
  omap (fun l => match l with Slot a _ => Some a | Ellipsis => None end) lines.

(** ** What a restart finds

    The index and the counter in memory against what the device holds, as
    [setup] will read them. *)
Definition index_persisted (st : Sketch) : Prop :=
  exists v, readLong (EEPROM st) eventIndexAddress = Done v
    /\ ((0 < to_int v /\ eventAddress st = to_int v)
        \/ (to_int v <= 0 /\ eventAddress st = eventIndexAddress)).

Definition counter_persisted (st : Sketch) : Prop :=
  exists c, readLong (EEPROM st) secondsCounterAddress = Done c
    /\ ((c <= 0 /\ secondsCounter st = 0) \/ secondsCounter st = c).

(** ** More of the Digispark variant *)

Module DigisparkTimer.

(** [void increaseSeconds()], with [unsigned long secondsCounter]; the
    counter is passed to the [long] parameter of [writeLong]. *)
Definition increaseSeconds (st : Sketch) : outcome Sketch :=
  let st := set_secondsCounter (to_ulong (secondsCounter st + 1)) st in
  e ← writeLong (EEPROM st) secondsCounterAddress (to_long (secondsCounter st));
  mret (set_EEPROM e st).

End DigisparkTimer.

(** The calls of [EEPROM.write] that store 0 in [n] cells from [first] on. *)
Fixpoint zero_calls (first : Z) (n : nat) : list (Z * Z) :=
  match n with
  | O => []
  | S n' => (first, 0) :: zero_calls (first + 1) n'
  end.

(** Every cell of the device holds 0. *)
Definition blank (e : EEPROMClass) : Prop :=
  forall i b, cells e !! i = Some b -> b = 0.

(** * Properties *)

(** ** Machine integers *)

Ltac unfold_ints :=
  unfold long_range, int_range, int_reach, LONG_MIN, LONG_MAX, INT_MAX, long_add,
    long_shl,
    int_add, to_long, to_int, to_ulong, to_uint8, wrap, long_bits, int_bits in *;
  change (2 ^ (32 - 1)) with 2147483648 in *;
  change (2 ^ 32) with 4294967296 in *;
  change (2 ^ (16 - 1)) with 32768 in *;
  change (2 ^ 16) with 65536 in *;
  change (2 ^ 8) with 256 in *.

Lemma to_long_id (z : Z) : long_range z -> to_long z = z.
Proof. unfold_ints. intros H. rewrite Z.mod_small; lia. Qed.

Lemma to_int_id (z : Z) : int_range z -> to_int z = z.
Proof. unfold_ints. intros H. rewrite Z.mod_small; lia. Qed.

Lemma to_long_range (z : Z) : long_range (to_long z).
Proof.
  unfold_ints. pose proof (Z.mod_pos_bound (z + 2147483648) 4294967296). lia.
Qed.

Lemma to_int_range (z : Z) : int_range (to_int z).
Proof.
  unfold_ints. pose proof (Z.mod_pos_bound (z + 32768) 65536). lia.
Qed.

Lemma to_int_idem (v : Z) : to_int (to_int v) = to_int v.
Proof. apply to_int_id, to_int_range. Qed.

Lemma byte_mask (z : Z) : Z.land z 255 = z mod 256.
Proof. change 255 with (Z.ones 8). rewrite Z.land_ones by lia. reflexivity. Qed.

Lemma to_uint8_mask (z : Z) : to_uint8 (Z.land z 255) = Z.land z 255.
Proof. unfold_ints. rewrite byte_mask. apply Z.mod_mod. lia. Qed.

(** Recombining the four bytes of [writeLong] the way [readLong] does gives
    the number back. *)
Lemma decode_encode (v : Z) :
  long_range v ->
  long_add (long_add (long_add (long_shl (Z.land (Z.shiftr v 24) 255) 24)
                               (long_shl (Z.land (Z.shiftr v 16) 255) 16))
                     (long_shl (Z.land (Z.shiftr v 8) 255) 8))
           (Z.land v 255) = v.
Proof.
  intros Hv.
  rewrite !byte_mask. unfold_ints.
  rewrite !Z.shiftr_div_pow2, !Z.shiftl_mul_pow2 by lia.
  change (2 ^ 24) with 16777216. change (2 ^ 16) with 65536. change (2 ^ 8) with 256.
  Z.div_mod_to_equations. lia.
Qed.

(** ** The device *)

Lemma in_device_iff (e : EEPROMClass) (i : Z) :
  in_device e i = true <-> 0 <= i < EEPROM_length e.
Proof. unfold in_device. rewrite andb_true_iff, Z.leb_le, Z.ltb_lt. tauto. Qed.

Lemma in_device_false (e : EEPROMClass) (i : Z) :
  in_device e i = false <-> ~ (0 <= i < EEPROM_length e).
Proof. rewrite <- in_device_iff. destruct (in_device e i); split; congruence. Qed.

(** The device is a prefix of the cells, within the reach of an [int]. *)
Lemma EEPROM_length_bounds (e : EEPROMClass) :
  0 <= EEPROM_length e <= INT_MAX + 1
  /\ EEPROM_length e <= Z.of_nat (length (cells e)).
Proof. unfold EEPROM_length. unfold_ints. lia. Qed.

Lemma EEPROM_length_cells_inv (e : EEPROMClass) :
  EEPROM_length e <= INT_MAX ->
  EEPROM_length e = Z.of_nat (length (cells e)).
Proof. unfold EEPROM_length. lia. Qed.

(** Narrowing does nothing to an address in the device. *)
Lemma to_int_device (e : EEPROMClass) (i : Z) :
  0 <= i < EEPROM_length e -> to_int i = i.
Proof.
  intros H. apply to_int_id. destruct (EEPROM_length_bounds e) as [Hb _].
  revert Hb. unfold_ints. lia.
Qed.

Lemma to_int_reach (a k : Z) :
  int_reach a -> 0 <= k <= 3 -> 0 <= to_int (a + k) -> to_int (a + k) = a + k.
Proof.
  unfold int_reach. unfold_ints. intros Ha Hk.
  destruct (Z.le_gt_cases (a + k) 32767) as [Hle|Hgt].
  - rewrite Z.mod_small by lia. lia.
  - replace (a + k + 32768) with (a + k - 32768 + 1 * 65536) by lia.
    rewrite Z.mod_add, Z.mod_small by lia. lia.
Qed.

Lemma to_int_add (a k : Z) : to_int (to_int a + k) = to_int (a + k).
Proof. unfold_ints. Z.div_mod_to_equations. lia. Qed.

Lemma int_range_reach (a : Z) : int_range a -> int_reach a.
Proof. unfold int_reach. unfold_ints. lia. Qed.

Lemma EEPROM_length_put_byte (e : EEPROMClass) (i v : Z) :
  EEPROM_length (put_byte e i v) = EEPROM_length e.
Proof. unfold EEPROM_length, put_byte. simpl. by rewrite length_insert. Qed.

Lemma EEPROM_write_Done (e : EEPROMClass) (i v : Z) :
  0 <= i < EEPROM_length e ->
  EEPROM_write e i v = Done (put_byte e i (to_uint8 v)).
Proof.
  intros H. unfold EEPROM_write. cbn zeta. rewrite (to_int_device e i H).
  apply in_device_iff in H. by rewrite H.
Qed.

Lemma EEPROM_write_inv (e e' : EEPROMClass) (i v : Z) :
  EEPROM_write e i v = Done e' ->
  0 <= to_int i < EEPROM_length e /\ e' = put_byte e (to_int i) (to_uint8 v).
Proof.
  unfold EEPROM_write. cbn zeta.
  destruct (in_device e (to_int i)) eqn:H; [|discriminate].
  apply in_device_iff in H. intros [= <-]. done.
Qed.

Lemma EEPROM_write_narrow (e : EEPROMClass) (i j v : Z) :
  to_int i = to_int j -> EEPROM_write e i v = EEPROM_write e j v.
Proof. unfold EEPROM_write. by intros ->. Qed.

Lemma EEPROM_read_narrow (e : EEPROMClass) (i j : Z) :
  to_int i = to_int j -> EEPROM_read e i = EEPROM_read e j.
Proof. unfold EEPROM_read. by intros ->. Qed.

Lemma EEPROM_read_Done (e : EEPROMClass) (i b : Z) :
  0 <= i < EEPROM_length e -> cells e !! Z.to_nat i = Some b ->
  EEPROM_read e i = Done b.
Proof.
  intros H L. unfold EEPROM_read. cbn zeta. rewrite (to_int_device e i H).
  apply in_device_iff in H. by rewrite H, L.
Qed.

Lemma EEPROM_read_inv (e : EEPROMClass) (i b : Z) :
  EEPROM_read e i = Done b ->
  0 <= to_int i < EEPROM_length e /\ cells e !! Z.to_nat (to_int i) = Some b.
Proof.
  unfold EEPROM_read. cbn zeta.
  destruct (in_device e (to_int i)) eqn:H; [|discriminate].
  apply in_device_iff in H.
  destruct (cells e !! Z.to_nat (to_int i)); [|discriminate].
  intros [= <-]. done.
Qed.

Lemma lookup_in_device (e : EEPROMClass) (i : Z) :
  0 <= i < EEPROM_length e -> exists b, cells e !! Z.to_nat i = Some b.
Proof.
  intros H. destruct (EEPROM_length_bounds e) as [_ Hl].
  apply lookup_lt_is_Some_2. lia.
Qed.

Lemma lookup_put_byte (e : EEPROMClass) (i v j : Z) :
  0 <= i < EEPROM_length e -> 0 <= j ->
  cells (put_byte e i v) !! Z.to_nat j =
  if Z.eq_dec j i then Some v else cells e !! Z.to_nat j.
Proof.
  intros Hi Hj. destruct (EEPROM_length_bounds e) as [_ Hl].
  unfold put_byte. simpl.
  destruct (Z.eq_dec j i) as [->|Hne].
  - apply list_lookup_insert_eq. lia.
  - apply list_lookup_insert_ne. lia.
Qed.

(** ** The codec *)

(** The device after a successful [writeLong]. *)
Lemma writeLong_Done (e : EEPROMClass) (a v : Z) :
  0 <= a -> a + 3 < EEPROM_length e ->
  writeLong e a v =
  Done (put_byte (put_byte (put_byte (put_byte e
          a (Z.land (Z.shiftr v 24) 255))
          (a + 1) (Z.land (Z.shiftr v 16) 255))
          (a + 2) (Z.land (Z.shiftr v 8) 255))
          (a + 3) (Z.land v 255)).
Proof.
  intros H0 H3. unfold writeLong.
  rewrite EEPROM_write_Done by lia. simpl.
  rewrite EEPROM_write_Done by (rewrite EEPROM_length_put_byte; lia). simpl.
  rewrite EEPROM_write_Done by (rewrite !EEPROM_length_put_byte; lia). simpl.
  rewrite EEPROM_write_Done by (rewrite !EEPROM_length_put_byte; lia).
  by rewrite !to_uint8_mask.
Qed.

(** Only the [int] value of the address matters to the codec. *)
Lemma writeLong_narrow (e : EEPROMClass) (a v : Z) :
  writeLong e a v = writeLong e (to_int a) v.
Proof.
  unfold writeLong.
  rewrite (EEPROM_write_narrow e a (to_int a)) by (by rewrite to_int_idem).
  destruct (EEPROM_write e (to_int a) _) as [e1|]; [|done]. simpl.
  rewrite (EEPROM_write_narrow e1 (a + 1) (to_int a + 1))
    by (by rewrite to_int_add).
  destruct (EEPROM_write e1 (to_int a + 1) _) as [e2|]; [|done]. simpl.
  rewrite (EEPROM_write_narrow e2 (a + 2) (to_int a + 2))
    by (by rewrite to_int_add).
  destruct (EEPROM_write e2 (to_int a + 2) _) as [e3|]; [|done]. simpl.
  by rewrite (EEPROM_write_narrow e3 (a + 3) (to_int a + 3))
    by (by rewrite to_int_add).
Qed.

Lemma readLong_narrow (e : EEPROMClass) (a : Z) :
  readLong e a = readLong e (to_int a).
Proof.
  unfold readLong.
  rewrite (EEPROM_read_narrow e a (to_int a)) by (by rewrite to_int_idem).
  rewrite (EEPROM_read_narrow e (a + 1) (to_int a + 1)) by (by rewrite to_int_add).
  rewrite (EEPROM_read_narrow e (a + 2) (to_int a + 2)) by (by rewrite to_int_add).
  by rewrite (EEPROM_read_narrow e (a + 3) (to_int a + 3))
    by (by rewrite to_int_add).
Qed.

(** [writeLong] completes exactly when its four cells lie in the device. *)
Lemma writeLong_inv (e e' : EEPROMClass) (a v : Z) :
  int_reach a -> writeLong e a v = Done e' ->
  0 <= a /\ a + 3 < EEPROM_length e.
Proof.
  unfold writeLong. intros Hr H.
  destruct (EEPROM_write e a _) as [e1|] eqn:W1; [|discriminate]. simpl in H.
  destruct (EEPROM_write e1 (a + 1) _) as [e2|] eqn:W2; [|discriminate]. simpl in H.
  destruct (EEPROM_write e2 (a + 2) _) as [e3|] eqn:W3; [|discriminate]. simpl in H.
  apply EEPROM_write_inv in W1 as [H1 ->], W2 as [H2 ->], W3 as [H3 ->],
    H as [H4 ->].
  rewrite !EEPROM_length_put_byte in *.
  pose proof (to_int_reach a 0 Hr ltac:(lia)) as E0. rewrite Z.add_0_r in E0.
  pose proof (to_int_reach a 3 Hr ltac:(lia)) as E3.
  rewrite E0 in H1 by lia. rewrite E3 in H4 by lia. lia.
Qed.

Lemma writeLong_inv_int (e e' : EEPROMClass) (a v : Z) :
  writeLong e a v = Done e' ->
  0 <= to_int a /\ to_int a + 3 < EEPROM_length e.
Proof.
  rewrite writeLong_narrow. apply writeLong_inv, int_range_reach, to_int_range.
Qed.

Lemma writeLong_length (e e' : EEPROMClass) (a v : Z) :
  writeLong e a v = Done e' -> EEPROM_length e' = EEPROM_length e.
Proof.
  intros H. destruct (writeLong_inv_int _ _ _ _ H) as [H0 H3].
  rewrite writeLong_narrow, writeLong_Done in H by done. injection H as <-.
  by rewrite !EEPROM_length_put_byte.
Qed.

Lemma writeLong_journal (e e' : EEPROMClass) (a v : Z) :
  int_reach a -> writeLong e a v = Done e' ->
  journal e' = journal e ++ writeLong_calls a v.
Proof.
  intros Hr H. destruct (writeLong_inv _ _ _ _ Hr H) as [H0 H3].
  rewrite writeLong_Done in H by done. injection H as <-.
  unfold put_byte, writeLong_calls. simpl. by rewrite <- !app_assoc.
Qed.

(** Cells outside the four written ones keep their byte. *)
Lemma writeLong_other (e e' : EEPROMClass) (a v i : Z) :
  int_reach a -> writeLong e a v = Done e' -> 0 <= i -> i < a \/ a + 3 < i ->
  cells e' !! Z.to_nat i = cells e !! Z.to_nat i.
Proof.
  intros Hr H Hi Hne. destruct (writeLong_inv _ _ _ _ Hr H) as [H0 H3].
  rewrite writeLong_Done in H by done. injection H as <-.
  rewrite !lookup_put_byte by (rewrite ?EEPROM_length_put_byte; lia).
  repeat (destruct (Z.eq_dec _ _); [lia|]). done.
Qed.

(** The written cells hold the bytes of [encodeLong], lowest address first. *)
Lemma writeLong_cells (e e' : EEPROMClass) (a v : Z) (k : nat) (b : Z) :
  int_reach a -> writeLong e a v = Done e' -> encodeLong v !! k = Some b ->
  cells e' !! Z.to_nat (a + Z.of_nat k) = Some b.
Proof.
  intros Hr H Hk. destruct (writeLong_inv _ _ _ _ Hr H) as [H0 H3].
  rewrite writeLong_Done in H by done. injection H as <-.
  assert (k < 4)%nat as Hlt by (apply lookup_lt_Some in Hk; simpl in Hk; lia).
  rewrite !lookup_put_byte by (rewrite ?EEPROM_length_put_byte; lia).
  destruct k as [|[|[|[|k]]]]; [..|lia]; simpl in Hk; injection Hk as <-;
    repeat (destruct (Z.eq_dec _ _); [try lia; try done|]); lia.
Qed.

Lemma EEPROM_read_ext (e e' : EEPROMClass) (i : Z) :
  EEPROM_length e' = EEPROM_length e ->
  (0 <= to_int i ->
   cells e' !! Z.to_nat (to_int i) = cells e !! Z.to_nat (to_int i)) ->
  EEPROM_read e' i = EEPROM_read e i.
Proof.
  intros Hlen Hc. unfold EEPROM_read, in_device. cbn zeta. rewrite Hlen.
  destruct (Z.leb_spec 0 (to_int i)) as [Hi|Hi]; simpl; [|done].
  by rewrite Hc.
Qed.

(** [readLong] sees four cells only. *)
Lemma readLong_ext (e e' : EEPROMClass) (a : Z) :
  int_reach a -> EEPROM_length e' = EEPROM_length e ->
  (forall i, 0 <= i -> a <= i <= a + 3 ->
             cells e' !! Z.to_nat i = cells e !! Z.to_nat i) ->
  readLong e' a = readLong e a.
Proof.
  intros Hr Hlen Hc. unfold readLong.
  pose proof (to_int_reach a 0 Hr ltac:(lia)) as E0. rewrite Z.add_0_r in E0.
  pose proof (to_int_reach a 1 Hr ltac:(lia)) as E1.
  pose proof (to_int_reach a 2 Hr ltac:(lia)) as E2.
  pose proof (to_int_reach a 3 Hr ltac:(lia)) as E3.
  rewrite (EEPROM_read_ext e e' a), (EEPROM_read_ext e e' (a + 1)),
    (EEPROM_read_ext e e' (a + 2)), (EEPROM_read_ext e e' (a + 3));
    try done; intros Hp.
  - rewrite E3 by done. apply Hc; lia.
  - rewrite E2 by done. apply Hc; lia.
  - rewrite E1 by done. apply Hc; lia.
  - rewrite E0 by done. apply Hc; lia.
Qed.

Lemma readLong_writeLong_other (e e' : EEPROMClass) (a v a' : Z) :
  int_reach a -> int_reach a' ->
  writeLong e a v = Done e' -> a' + 3 < a \/ a + 3 < a' ->
  readLong e' a' = readLong e a'.
Proof.
  intros Hr Hr' H Hne. apply readLong_ext; [done|by eapply writeLong_length|].
  intros i Hi Hri. eapply writeLong_other; [exact Hr|done|done|lia].
Qed.

Lemma readLong_cells (e : EEPROMClass) (a b0 b1 b2 b3 : Z) :
  0 <= a -> a + 3 < EEPROM_length e ->
  cells e !! Z.to_nat a = Some b0 -> cells e !! Z.to_nat (a + 1) = Some b1 ->
  cells e !! Z.to_nat (a + 2) = Some b2 -> cells e !! Z.to_nat (a + 3) = Some b3 ->
  readLong e a =
  Done (long_add (long_add (long_add (long_shl b0 24) (long_shl b1 16))
                           (long_shl b2 8)) b3).
Proof.
  intros Ha Hb H0 H1 H2 H3. unfold readLong.
  rewrite (EEPROM_read_Done e a b0) by (done || lia). simpl.
  rewrite (EEPROM_read_Done e (a + 1) b1) by (done || lia). simpl.
  rewrite (EEPROM_read_Done e (a + 2) b2) by (done || lia). simpl.
  rewrite (EEPROM_read_Done e (a + 3) b3) by (done || lia). done.
Qed.

(** Reading a long back from where it was written. *)
Lemma readLong_writeLong (e e' : EEPROMClass) (a v : Z) :
  long_range v -> writeLong e a v = Done e' -> readLong e' a = Done v.
Proof.
  intros Hv H. rewrite writeLong_narrow in H. rewrite readLong_narrow.
  assert (int_reach (to_int a)) as Hr by apply int_range_reach, to_int_range.
  destruct (writeLong_inv _ _ _ _ Hr H) as [H0 H3].
  pose proof (writeLong_length _ _ _ _ H) as Hl.
  pose proof (writeLong_cells _ _ _ _ 0 _ Hr H eq_refl) as C0.
  pose proof (writeLong_cells _ _ _ _ 1 _ Hr H eq_refl) as C1.
  pose proof (writeLong_cells _ _ _ _ 2 _ Hr H eq_refl) as C2.
  pose proof (writeLong_cells _ _ _ _ 3 _ Hr H eq_refl) as C3.
  simpl in C0, C1, C2, C3. rewrite Z.add_0_r in C0.
  rewrite <- Hl in H3.
  rewrite (readLong_cells _ _ _ _ _ _ H0 H3 C0 C1 C2 C3).
  by rewrite decode_encode.
Qed.

Lemma bind_Done {A B : Type} (m : outcome A) (f : A -> outcome B) (b : B) :
  m ≫= f = Done b -> exists a, m = Done a /\ f a = Done b.
Proof. destruct m as [a|]; [|discriminate]. intros H. by exists a. Qed.

Lemma readLong_range (e : EEPROMClass) (a v : Z) :
  readLong e a = Done v -> long_range v.
Proof.
  unfold readLong. intros H.
  apply bind_Done in H as (b0 & R0 & H).
  apply bind_Done in H as (b1 & R1 & H).
  apply bind_Done in H as (b2 & R2 & H).
  apply bind_Done in H as (b3 & R3 & H).
  cbv [mret outcome_ret] in H. injection H as <-. apply to_long_range.
Qed.

Lemma readLong_inv (e : EEPROMClass) (a v : Z) :
  int_reach a -> readLong e a = Done v ->
  0 <= a /\ a + 3 < EEPROM_length e /\ long_range v.
Proof.
  intros Hr H. split; [|split; [|by eapply readLong_range]];
    unfold readLong in H;
    apply bind_Done in H as (b0 & R0 & H);
    apply bind_Done in H as (b1 & R1 & H);
    apply bind_Done in H as (b2 & R2 & H);
    apply bind_Done in H as (b3 & R3 & H);
    apply EEPROM_read_inv in R0 as [H0 _];
    apply EEPROM_read_inv in R3 as [H3 _];
    pose proof (to_int_reach a 0 Hr ltac:(lia)) as E0;
    rewrite Z.add_0_r in E0;
    pose proof (to_int_reach a 3 Hr ltac:(lia)) as E3;
    rewrite E0 in H0 by lia; rewrite E3 in H3 by lia; lia.
Qed.

Lemma readLong_total (e : EEPROMClass) (a : Z) :
  0 <= a -> a + 3 < EEPROM_length e -> exists v, readLong e a = Done v.
Proof.
  intros H0 H3.
  destruct (lookup_in_device e a) as [b0 L0]; [lia|].
  destruct (lookup_in_device e (a + 1)) as [b1 L1]; [lia|].
  destruct (lookup_in_device e (a + 2)) as [b2 L2]; [lia|].
  destruct (lookup_in_device e (a + 3)) as [b3 L3]; [lia|].
  eexists. by apply readLong_cells.
Qed.

Lemma int_reach_device (e : EEPROMClass) (a : Z) :
  0 <= a -> a + 3 < EEPROM_length e -> int_reach a.
Proof.
  intros H0 H3. destruct (EEPROM_length_bounds e) as [Hb _]. revert Hb.
  unfold int_reach. unfold_ints. lia.
Qed.

(** Constant addresses and [int] values are within reach. *)
Lemma int_reach_index : int_reach eventIndexAddress.
Proof. unfold int_reach, eventIndexAddress. unfold_ints. lia. Qed.

Lemma int_reach_counter : int_reach secondsCounterAddress.
Proof. unfold int_reach, secondsCounterAddress. unfold_ints. lia. Qed.

Lemma int_reach_to_int (z : Z) : int_reach (to_int z).
Proof. apply int_range_reach, to_int_range. Qed.

Lemma int_reach_int_add (a b : Z) : int_reach (int_add a b).
Proof. apply int_reach_to_int. Qed.

Lemma int_reach_between (a : Z) :
  - 2 ^ (int_bits - 1) <= a <= INT_MAX + 4 -> int_reach a.
Proof. unfold int_reach. unfold_ints. lia. Qed.

(** ** The sketch, statement by statement *)

Lemma eventsDelay_eq : eventsDelay = 1200.
Proof. reflexivity. Qed.

Lemma counterIncreaseRatio_eq : counterIncreaseRatio = 20.
Proof. reflexivity. Qed.

Lemma handleSensor_idle (pin : bool) (st : Sketch) :
  negb (hasEvent st) && pin = false ->
  handleSensor pin st = Done ([], cooldown st).
Proof. intros H. unfold handleSensor. rewrite H. reflexivity. Qed.

Lemma handleSensor_event (st : Sketch) :
  hasEvent st = false ->
  handleSensor true st =
  e ← writeLong (EEPROM st) (int_add (eventAddress st) eventAddressStep)
                (secondsCounter st);
  e ← writeLong e eventIndexAddress (int_add (eventAddress st) eventAddressStep);
  mret ([EventOccurred (secondsCounter st)
                       (int_add (eventAddress st) eventAddressStep)],
        cooldown (recorded e st)).
Proof.
  intros H. unfold handleSensor. rewrite H. simpl.
  destruct (writeLong _ _ _) as [e1|]; [|done]. simpl.
  destruct (writeLong _ _ _) as [e2|]; done.
Qed.

Lemma cooldown_recorded (e : EEPROMClass) (st : Sketch) :
  cooldown (recorded e st) = set_eventTime 1 (recorded e st).
Proof. reflexivity. Qed.

Lemma handleTimer_quiet (st : Sketch) :
  int_add (timer st) 1 < counterIncreaseRatio ->
  handleTimer st = Done ([], set_timer (int_add (timer st) 1) st).
Proof.
  intros H. unfold handleTimer. simpl.
  destruct (Z.leb_spec counterIncreaseRatio (int_add (timer st) 1)); [lia|done].
Qed.

Lemma handleTimer_second (st : Sketch) :
  counterIncreaseRatio <= int_add (timer st) 1 ->
  handleTimer st =
  e ← writeLong (EEPROM st) secondsCounterAddress (long_add (secondsCounter st) 1);
  mret ([Timestamp (long_add (secondsCounter st) 1)],
        set_EEPROM e (set_secondsCounter (long_add (secondsCounter st) 1)
                        (set_timer 0 st))).
Proof.
  intros H. unfold handleTimer. simpl.
  destruct (Z.leb_spec counterIncreaseRatio (int_add (timer st) 1)); [|lia].
  simpl. destruct (writeLong _ _ _); done.
Qed.

(** [handleTimer] never touches the debounce variables nor the index. *)
Lemma handleTimer_frame (st st' : Sketch) (out : list SerialLine) :
  handleTimer st = Done (out, st') ->
  hasEvent st' = hasEvent st /\ eventTime st' = eventTime st
  /\ eventAddress st' = eventAddress st /\ memorySize st' = memorySize st
  /\ isReadOnly st' = isReadOnly st /\ events out = [].
Proof.
  unfold handleTimer. simpl.
  destruct (counterIncreaseRatio <=? int_add (timer st) 1).
  - destruct (writeLong _ _ _) as [e|]; [|discriminate]. simpl.
    intros [= <- <-]. done.
  - intros [= <- <-]. done.
Qed.

Lemma loop_halted (pin : bool) (st : Sketch) :
  isReadOnly st || isMemoryFull st = true ->
  loop pin st =
  Done ([if isReadOnly st then READ_ONLY_MODE else MEMORY_IS_FULL], st).
Proof.
  unfold loop. destruct (isReadOnly st); [done|]. simpl. by intros ->.
Qed.

Lemma loop_normal (pin : bool) (st : Sketch) :
  isReadOnly st = false -> isMemoryFull st = false ->
  loop pin st =
  '(out1, st1) ← handleSensor pin st;
  '(out2, st2) ← handleTimer st1;
  mret (out1 ++ out2, st2).
Proof. unfold loop. by intros -> ->. Qed.

(** ** The codec round trip *)

Lemma encodeLong_lookup (v k : Z) :
  0 <= k <= 3 ->
  encodeLong v !! Z.to_nat k = Some ((v / 2 ^ (8 * (3 - k))) mod 256).
Proof.
  intros Hk. unfold encodeLong.
  assert (k = 0 \/ k = 1 \/ k = 2 \/ k = 3) as [-> | [-> | [-> | ->]]] by lia;
    simpl; rewrite byte_mask, ?Z.shiftr_div_pow2 by lia;
    try reflexivity.
  by rewrite Z.div_1_r.
Qed.

(** C7. For every 32-bit signed [v] and every address whose four cells lie in
    the device, [readLong] after [writeLong] returns [v] (negative values and
    the extreme values included), and the cell at [address + k] holds the
    byte of weight [256 ^ (3 - k)]: the most significant byte sits at the
    lowest address. *)
Theorem writeLong_readLong_roundtrip (e : EEPROMClass) (a v : Z) :
  long_range v -> 0 <= a -> a + 3 < EEPROM_length e ->
  exists e', writeLong e a v = Done e'
    /\ readLong e' a = Done v
    /\ forall k, 0 <= k <= 3 ->
         cells e' !! Z.to_nat (a + k) = Some ((v / 2 ^ (8 * (3 - k))) mod 256).
Proof.
  intros Hv H0 H3. eexists. split; [by apply writeLong_Done|].
  pose proof (writeLong_Done e a v H0 H3) as W.
  split; [by eapply readLong_writeLong|].
  intros k Hk. replace (a + k) with (a + Z.of_nat (Z.to_nat k)) by lia.
  eapply writeLong_cells; [by eapply int_reach_device|exact W|].
  by apply encodeLong_lookup.
Qed.

Lemma writeLong_readLong_roundtrip_witness :
  exists e', writeLong (device 16 0) 8 (-2147483648) = Done e'
    /\ readLong e' 8 = Done (-2147483648)
    /\ forall k, 0 <= k <= 3 ->
         cells e' !! Z.to_nat (8 + k)
         = Some ((-2147483648 / 2 ^ (8 * (3 - k))) mod 256).
Proof.
  apply (writeLong_readLong_roundtrip (device 16 0) 8 (-2147483648));
    [unfold_ints; lia | lia | vm_compute; reflexivity].
Defined.

(** The round trip at the other extreme values. *)
Example readLong_writeLong_extremes :
  (e ← writeLong (device 16 0) 8 2147483647; readLong e 8) = Done 2147483647
  /\ (e ← writeLong (device 16 0) 8 0; readLong e 8) = Done 0
  /\ (e ← writeLong (device 16 0) 8 (-1); readLong e 8) = Done (-1)
  /\ (e ← writeLong (device 16 0) 8 (-1); mret (cells e))
     = Done [0; 0; 0; 0; 0; 0; 0; 0; 255; 255; 255; 255; 0; 0; 0; 0].
Proof. vm_compute. done. Qed.

(** ** Appending an event *)

(** Well-formedness of a state given in full. *)
Ltac wf_concrete :=
  constructor; vm_compute;
  first [reflexivity | discriminate | split; first [reflexivity | discriminate]].

Lemma int_add_step (st : Sketch) :
  wf st -> eventAddress st + eventAddressStep + 3 < EEPROM_length (EEPROM st) ->
  int_add (eventAddress st) eventAddressStep = eventAddress st + eventAddressStep.
Proof.
  intros [_ _ Ha Hm Hi] H. unfold int_add. apply to_int_id.
  unfold eventAddressStep, eventIndexAddress in *. unfold_ints. lia.
Qed.

(** C1, as the sketch has it.  In every state without an active event whose
    next record slot lies in the device (such a state is not full), a sensor
    pulse advances [eventAddress] by 4 in memory, then writes the four bytes of
    [secondsCounter] at the new address, and only afterwards writes the new
    address to the index offset 4. *)
Theorem handleSensor_write_order (st : Sketch) :
  wf st -> hasEvent st = false ->
  eventAddress st + eventAddressStep + 3 < EEPROM_length (EEPROM st) ->
  exists st',
    handleSensor true st
    = Done ([EventOccurred (secondsCounter st)
                           (eventAddress st + eventAddressStep)], st')
    /\ eventAddress st' = eventAddress st + eventAddressStep
    /\ journal (EEPROM st') = journal (EEPROM st) ++ handleSensor_calls st
    /\ isMemoryFull st = false.
Proof.
  intros Hwf Hev Hin. pose proof (int_add_step st Hwf Hin) as Hp.
  destruct Hwf as [_ _ Ha Hm Hi].
  rewrite handleSensor_event by done. rewrite !Hp.
  unfold eventAddressStep, eventIndexAddress in *.
  rewrite writeLong_Done by lia. cbn [mbind outcome_bind].
  rewrite writeLong_Done by (rewrite ?EEPROM_length_put_byte; lia).
  cbn [mbind outcome_bind mret outcome_ret].
  eexists. split; [reflexivity|]. split; [exact Hp|]. split.
  - simpl. unfold handleSensor_calls, writeLong_calls, eventAddressStep,
      eventIndexAddress. simpl. by rewrite <- !app_assoc.
  - unfold isMemoryFull. apply Z.ltb_ge. lia.
Qed.

Lemma handleSensor_write_order_witness :
  exists st',
    handleSensor true (set_memorySize 16 (power_on (device 16 0)))
    = Done ([EventOccurred 0 12], st')
    /\ eventAddress st' = 12
    /\ journal (EEPROM st')
       = [] ++ handleSensor_calls (set_memorySize 16 (power_on (device 16 0)))
    /\ isMemoryFull (set_memorySize 16 (power_on (device 16 0))) = false.
Proof.
  apply (handleSensor_write_order (set_memorySize 16 (power_on (device 16 0))));
    [wf_concrete | reflexivity | vm_compute; reflexivity].
Defined.

(** C1, as the specification words it, fails.  With counter 5 and index 8
    stored on a 16-byte device, the pulse writes 5 at address 12 before it
    writes 12 at the index offset; the order "index first" is not the
    journal. *)
Lemma appendEvent_pointer_first_refuted :
  exists st st',
    setup false (device_with 16 5 8) = Done st
    /\ isMemoryFull st = false
    /\ handleSensor true st = Done ([EventOccurred 5 12], st')
    /\ journal (EEPROM st')
       = [(12, 0); (13, 0); (14, 0); (15, 5); (4, 0); (5, 0); (6, 0); (7, 12)]
    /\ journal (EEPROM st') <> journal (EEPROM st) ++ appendEvent_spec_calls st.
Proof.
  eexists. eexists.
  split; [vm_compute; reflexivity|]. split; [reflexivity|].
  split; [vm_compute; reflexivity|]. split; [reflexivity|].
  vm_compute. discriminate.
Qed.

(** ** Start-up *)

(** What [initializeEventAddress] does with a stored index that reads as
    [<= 0] in the [int] [eventAddress]: the value written back is the one just
    read, and only the variable is set to the index offset. *)
Lemma initializeEventAddress_reset (st : Sketch) (v : Z) :
  readLong (EEPROM st) eventIndexAddress = Done v -> to_int v <= 0 ->
  exists e,
    writeLong (EEPROM st) eventIndexAddress (to_int v) = Done e
    /\ initializeEventAddress st
       = Done (set_eventAddress eventIndexAddress
                 (set_EEPROM e (set_eventAddress (to_int v) st)))
    /\ readLong e eventIndexAddress = Done (to_int v).
Proof.
  intros R Hv.
  destruct (readLong_inv _ _ _ int_reach_index R) as (H0 & H3 & _).
  pose proof (writeLong_Done (EEPROM st) eventIndexAddress (to_int v) H0 H3) as W.
  eexists. split; [exact W|]. split.
  - unfold initializeEventAddress. rewrite R. cbn [mbind outcome_bind].
    cbn [eventAddress set_eventAddress EEPROM].
    destruct (Z.leb_spec (to_int v) 0); [|lia].
    rewrite W. reflexivity.
  - eapply readLong_writeLong; [|exact W].
    pose proof (to_int_range v). unfold_ints. lia.
Qed.

Lemma initializeEventAddress_keep (st : Sketch) (v : Z) :
  readLong (EEPROM st) eventIndexAddress = Done v -> 0 < to_int v ->
  initializeEventAddress st = Done (set_eventAddress (to_int v) st).
Proof.
  intros R Hv. unfold initializeEventAddress. rewrite R.
  cbn [mbind outcome_bind]. cbn [eventAddress set_eventAddress EEPROM].
  destruct (Z.leb_spec (to_int v) 0); [lia|]. reflexivity.
Qed.

(** [setup] in two steps: the two restores, then the switch. *)
Lemma setup_unfold (readOnlySwitch : bool) (e : EEPROMClass) :
  setup readOnlySwitch e
  = (st ← initializeEventAddress
            (set_memorySize (to_int (EEPROM_length e)) (power_on e));
     v ← readLong (EEPROM st) secondsCounterAddress;
     if readOnlySwitch then
       match printMemoryStatus (EEPROM st) with
       | Some (OutOfRange address) => OutOfRange address
       | _ => mret (set_isReadOnly true
                      (if v <=? 0
                       then set_secondsCounter 0 (set_secondsCounter v st)
                       else set_secondsCounter v st))
       end
     else mret (if v <=? 0 then set_secondsCounter 0 (set_secondsCounter v st)
                else set_secondsCounter v st)).
Proof.
  unfold setup. cbn zeta. cbn [EEPROM power_on].
  destruct (initializeEventAddress _) as [st|]; [|reflexivity].
  cbn [mbind outcome_bind].
  destruct (readLong (EEPROM st) secondsCounterAddress) as [v|]; [|reflexivity].
  cbn [mbind outcome_bind secondsCounter set_secondsCounter].
  destruct (v <=? 0), readOnlySwitch; reflexivity.
Qed.

(** C2 at a blank device.  On 1024 zero bytes [setup] sets [eventAddress] to
    the index offset 4, but the four bytes it writes to offset 4 are those of
    the value it read, 0: the index slot still decodes to 0, not to 4. *)
Theorem setup_blank_writes_back_stale_index :
  exists st,
    setup false (device 1024 0) = Done st
    /\ eventAddress st = eventIndexAddress
    /\ journal (EEPROM st) = writeLong_calls eventIndexAddress 0
    /\ readLong (EEPROM st) eventIndexAddress = Done 0.
Proof.
  eexists. split; [vm_compute; reflexivity|].
  split; [reflexivity|]. split; [reflexivity|]. vm_compute. reflexivity.
Qed.

(** C9 at an erased device.  On 1024 bytes of 0xFF the stored counter reads
    -1; [setup] resets [secondsCounter] to 0 in memory and writes nothing to
    offset 0, which still decodes to -1.  Its only writes are the four of the
    index write-back. *)
Theorem setup_erased_counter_not_written_back :
  exists st,
    setup false (device 1024 255) = Done st
    /\ secondsCounter st = 0
    /\ journal (EEPROM st) = [(4, 255); (5, 255); (6, 255); (7, 255)]
    /\ readLong (EEPROM st) secondsCounterAddress = Done (-1).
Proof.
  eexists. split; [vm_compute; reflexivity|].
  split; [reflexivity|]. split; [reflexivity|]. vm_compute. reflexivity.
Qed.

(** The variant's [initializeSecondsCounter] writes the reset value back: a
    stored counter that reads as 0 in its [unsigned long] is reset in memory,
    and the four bytes of 0 are written to offset 0, which then decodes
    to 0. *)
Lemma initializeSecondsCounter_writes_back (st : Sketch) (v : Z) :
  readLong (EEPROM st) secondsCounterAddress = Done v -> to_ulong v <= 0 ->
  exists st',
    Digispark.initializeSecondsCounter st = Done st'
    /\ secondsCounter st' = 0
    /\ journal (EEPROM st')
       = journal (EEPROM st) ++ writeLong_calls secondsCounterAddress 0
    /\ readLong (EEPROM st') secondsCounterAddress = Done 0.
Proof.
  intros R Hv.
  destruct (readLong_inv _ _ _ int_reach_counter R) as (H0 & H3 & _).
  pose proof (writeLong_Done (EEPROM st) secondsCounterAddress 0 H0 H3) as W.
  eexists. split.
  - unfold Digispark.initializeSecondsCounter. rewrite R.
    cbn [mbind outcome_bind]. cbn [secondsCounter set_secondsCounter EEPROM].
    destruct (Z.leb_spec (to_ulong v) 0); [|lia].
    rewrite W. reflexivity.
  - split; [reflexivity|]. split.
    + cbn [EEPROM set_secondsCounter set_EEPROM].
      eapply writeLong_journal; [exact int_reach_counter|exact W].
    + cbn [EEPROM set_secondsCounter set_EEPROM].
      eapply readLong_writeLong; [|exact W]. unfold_ints. lia.
Qed.

(** ** One pass of the loop *)

Lemma handleTimer_inv (st st' : Sketch) (out : list SerialLine) :
  handleTimer st = Done (out, st') ->
  (int_add (timer st) 1 < counterIncreaseRatio
   /\ out = [] /\ st' = set_timer (int_add (timer st) 1) st)
  \/ (counterIncreaseRatio <= int_add (timer st) 1
      /\ out = [Timestamp (long_add (secondsCounter st) 1)]
      /\ exists e,
         writeLong (EEPROM st) secondsCounterAddress
                   (long_add (secondsCounter st) 1) = Done e
         /\ st' = set_EEPROM e (set_secondsCounter (long_add (secondsCounter st) 1)
                                  (set_timer 0 st))).
Proof.
  intros H.
  destruct (Z.lt_ge_cases (int_add (timer st) 1) counterIncreaseRatio) as [Hq|Hq].
  - left. rewrite handleTimer_quiet in H by done.
    injection H as <- <-. done.
  - right. rewrite handleTimer_second in H by done.
    apply bind_Done in H as (e & W & H).
    cbv [mret outcome_ret] in H. injection H as <- <-. eauto.
Qed.

(** The three ways a pass of [loop] can complete. *)
Lemma loop_inv (pin : bool) (st st' : Sketch) (out : list SerialLine) :
  loop pin st = Done (out, st') ->
  (isReadOnly st || isMemoryFull st = true /\ st' = st /\ events out = [])
  \/ (isReadOnly st = false /\ isMemoryFull st = false
      /\ negb (hasEvent st) && pin = false
      /\ handleTimer (cooldown st) = Done (out, st'))
  \/ (isReadOnly st = false /\ isMemoryFull st = false
      /\ hasEvent st = false /\ pin = true
      /\ exists e1 e2 out2,
         writeLong (EEPROM st) (int_add (eventAddress st) eventAddressStep)
                   (secondsCounter st) = Done e1
         /\ writeLong e1 eventIndexAddress
                      (int_add (eventAddress st) eventAddressStep) = Done e2
         /\ handleTimer (cooldown (recorded e2 st)) = Done (out2, st')
         /\ out = EventOccurred (secondsCounter st)
                    (int_add (eventAddress st) eventAddressStep) :: out2).
Proof.
  intros H.
  destruct (isReadOnly st || isMemoryFull st) eqn:Hh.
  - left. rewrite loop_halted in H by done. injection H as <- <-.
    split; [done|]. split; [done|]. by destruct (isReadOnly st).
  - right. apply orb_false_elim in Hh as [Hr Hf].
    rewrite loop_normal in H by done.
    destruct (negb (hasEvent st) && pin) eqn:Hp.
    + right. apply andb_true_iff in Hp as [He ->].
      apply negb_true_iff in He.
      rewrite handleSensor_event in H by done.
      apply bind_Done in H as ([out1 st1] & H1 & H).
      apply bind_Done in H1 as (e1 & W1 & H1).
      apply bind_Done in H1 as (e2 & W2 & H1).
      cbv [mret outcome_ret] in H1. injection H1 as <- <-.
      apply bind_Done in H as ([out2 st2] & H2 & H).
      cbv [mret outcome_ret] in H. injection H as <- <-.
      do 4 (split; [done|]). exists e1, e2, out2. done.
    + left. rewrite handleSensor_idle in H by done.
      cbn [mbind outcome_bind] in H.
      apply bind_Done in H as ([out2 st2] & H2 & H).
      cbv [mret outcome_ret] in H. injection H as <- <-.
      do 3 (split; [done|]). done.
Qed.

Lemma run_cons (pin : bool) (pins : list bool) (st st' : Sketch)
      (out : list SerialLine) :
  loop pin st = Done (out, st') ->
  run st (pin :: pins) = (out :: (run st' pins).1, (run st' pins).2).
Proof. intros H. simpl. by rewrite H. Qed.

Lemma run_fault (pin : bool) (pins : list bool) (st : Sketch) (a : Z) :
  loop pin st = OutOfRange a -> run st (pin :: pins) = ([], OutOfRange a).
Proof. intros H. simpl. by rewrite H. Qed.

Lemma events_app (o1 o2 : list SerialLine) :
  events (o1 ++ o2) = events o1 ++ events o2.
Proof. unfold events. apply omap_app. Qed.

Lemma pulses_cons (out : list SerialLine) (outs : list (list SerialLine)) :
  pulses (out :: outs) = (length (events out) + pulses outs)%nat.
Proof. unfold pulses. simpl. by rewrite events_app, length_app. Qed.

(** ** C3: the full log *)

(** C3. Once [eventAddress] exceeds [memorySize], every further pass of
    [loop] leaves the whole state as it is, whatever the sensor reads: no byte
    is written (the journal of [EEPROM.write] calls does not grow), no event is
    reported, [isMemoryFull] stays true, and each pass of a sketch that is not
    read-only prints MEMORY IS FULL instead of recording. *)
Theorem full_log_is_frozen (st : Sketch) (pins : list bool) :
  isMemoryFull st = true ->
  exists outs,
    run st pins = (outs, Done st)
    /\ pulses outs = 0%nat
    /\ (isReadOnly st = false ->
        outs = replicate (length pins) [MEMORY_IS_FULL]).
Proof.
  intros Hf. induction pins as [|pin pins IH].
  - exists []. done.
  - destruct IH as (outs & Hr & Hp & Ho).
    assert (isReadOnly st || isMemoryFull st = true) as Hh
        by (rewrite Hf; apply orb_true_r).
    pose proof (loop_halted pin st Hh) as Hl.
    rewrite (run_cons _ _ _ _ _ Hl), Hr. cbn [fst snd].
    eexists. split; [reflexivity|]. split.
    + rewrite pulses_cons, Hp. by destruct (isReadOnly st).
    + intros Hro. rewrite Hro, (Ho Hro). reflexivity.
Qed.

Lemma full_log_is_frozen_witness :
  exists outs,
    run (set_eventAddress 36 (set_memorySize 32 (power_on (device 32 0))))
        [true; false; true]
    = (outs, Done (set_eventAddress 36 (set_memorySize 32 (power_on (device 32 0)))))
    /\ pulses outs = 0%nat
    /\ (isReadOnly (set_eventAddress 36 (set_memorySize 32 (power_on (device 32 0))))
        = false ->
        outs = replicate (length [true; false; true]) [MEMORY_IS_FULL]).
Proof.
  apply (full_log_is_frozen
           (set_eventAddress 36 (set_memorySize 32 (power_on (device 32 0))))
           [true; false; true]).
  reflexivity.
Defined.

(** ** C4: the bound of the full check *)

Lemma EEPROM_write_OutOfRange (e : EEPROMClass) (i v a : Z) :
  EEPROM_write e i v = OutOfRange a ->
  a = to_int i /\ ~ (0 <= to_int i < EEPROM_length e).
Proof.
  unfold EEPROM_write. cbn zeta.
  destruct (in_device e (to_int i)) eqn:H; [discriminate|].
  intros [= <-]. split; [done|by apply in_device_false].
Qed.

Lemma bind_OutOfRange {A B : Type} (m : outcome A) (f : A -> outcome B) (a : Z) :
  m ≫= f = OutOfRange a ->
  m = OutOfRange a \/ exists x, m = Done x /\ f x = OutOfRange a.
Proof. destruct m as [x|a']; intros H; [right; by exists x | left; injection H as ->; reflexivity]. Qed.

(** The address a failing [writeLong] reports is the [int] value of one of its
    four byte addresses, and lies outside the device. *)
Lemma writeLong_OutOfRange (e : EEPROMClass) (a v address : Z) :
  writeLong e a v = OutOfRange address ->
  (exists k, 0 <= k <= 3 /\ address = to_int (a + k))
  /\ ~ (0 <= address < EEPROM_length e).
Proof.
  unfold writeLong. intros H.
  apply bind_OutOfRange in H as [H|(e1 & W1 & H)].
  { apply EEPROM_write_OutOfRange in H as [-> H].
    split; [exists 0; by rewrite Z.add_0_r|done]. }
  apply EEPROM_write_inv in W1 as [? ->].
  apply bind_OutOfRange in H as [H|(e2 & W2 & H)].
  { apply EEPROM_write_OutOfRange in H as [-> H].
    rewrite EEPROM_length_put_byte in H. split; [by exists 1|done]. }
  apply EEPROM_write_inv in W2 as [? ->].
  apply bind_OutOfRange in H as [H|(e3 & W3 & H)].
  { apply EEPROM_write_OutOfRange in H as [-> H].
    rewrite !EEPROM_length_put_byte in H. split; [by exists 2|done]. }
  apply EEPROM_write_inv in W3 as [? ->].
  apply EEPROM_write_OutOfRange in H as [-> H].
  rewrite !EEPROM_length_put_byte in H. split; [by exists 3|done].
Qed.

(** C4 fails on the sketch.  A blank 32-byte device, the sensor held high:
    after 7206 passes six events are stored, the pointer is 28 and the log is
    not full (28 > 32 is false); the next pass accepts a seventh event and
    passes address 32 to [EEPROM.write].  The same happens on 1024 bytes that
    hold the index 1020: the first pulse writes at 1024. *)
Theorem loop_writes_past_end_of_device :
  (exists st st',
     setup false (device 32 0) = Done st
     /\ EEPROM_length (EEPROM st) = 32
     /\ (run st (held true 7206)).2 = Done st'
     /\ eventAddress st' = 28
     /\ isMemoryFull st' = false
     /\ loop true st' = OutOfRange 32
     /\ (run st (held true 7207)).2 = OutOfRange 32)
  /\ (exists st,
        setup false (device_with 1024 0 1020) = Done st
        /\ EEPROM_length (EEPROM st) = 1024
        /\ isMemoryFull st = false
        /\ loop true st = OutOfRange 1024).
Proof.
  split.
  - eexists. eexists. split; [vm_compute; reflexivity|].
    split; [reflexivity|]. split; [vm_compute; reflexivity|].
    split; [reflexivity|]. split; [reflexivity|].
    split; vm_compute; reflexivity.
  - eexists. split; [vm_compute; reflexivity|].
    split; [reflexivity|]. split; vm_compute; reflexivity.
Qed.

(** Without overflow the [int] sum is the sum; with overflow it is negative. *)
Lemma int_add_step_cases (a : Z) :
  0 <= a <= INT_MAX ->
  int_add a eventAddressStep = a + eventAddressStep
  \/ int_add a eventAddressStep < 0.
Proof.
  intros Ha. unfold int_add, eventAddressStep. unfold_ints.
  destruct (Z.le_gt_cases (a + 4) 32767) as [Hle|Hgt].
  - left. rewrite Z.mod_small; lia.
  - right. replace (a + 4 + 32768) with (a + 4 - 32768 + 1 * 65536) by lia.
    rewrite Z.mod_add, Z.mod_small by lia. lia.
Qed.

(** The full check admits a pointer too close to the end.  In every
    well-formed state in normal mode that is not full and has no active event,
    whose [eventAddress] is within seven bytes of the end of the device and
    whose advance by 4 does not leave the [int] range, a sensor pulse makes
    [loop] pass an address outside the device to [EEPROM.write]. *)
Lemma loop_pulse_violates (st : Sketch) :
  wf st -> isReadOnly st = false -> hasEvent st = false ->
  isMemoryFull st = false ->
  eventAddress st + eventAddressStep <= INT_MAX ->
  EEPROM_length (EEPROM st) <= eventAddress st + eventAddressStep + 3 ->
  exists address,
    loop true st = OutOfRange address
    /\ ~ (0 <= address < EEPROM_length (EEPROM st)).
Proof.
  intros [_ _ Ha Hm Hi] Hro Hev Hf Hmax Hend.
  rewrite loop_normal, handleSensor_event by done.
  destruct (writeLong (EEPROM st) _ (secondsCounter st)) as [e1|address] eqn:W.
  - exfalso. apply writeLong_inv in W as [W0 W3]; [|apply int_reach_int_add].
    destruct (int_add_step_cases (eventAddress st)) as [Hp|Hp];
      [unfold eventIndexAddress in Ha; lia | rewrite Hp in *; lia | lia].
  - exists address. split; [reflexivity|].
    by apply writeLong_OutOfRange in W as [_ W].
Qed.

(** ** C6: the seconds counter *)

Lemma to_long_add_l (x y : Z) : to_long (to_long x + y) = to_long (x + y).
Proof. unfold_ints. Z.div_mod_to_equations. lia. Qed.

Lemma wf_set_timer (st : Sketch) (t : Z) :
  wf st -> 0 <= t < counterIncreaseRatio -> wf (set_timer t st).
Proof. intros [] Ht. by constructor. Qed.

(** One call of [handleTimer] in a well-formed state on a device of at least
    four bytes. *)
Lemma handleTimer_step (st : Sketch) :
  wf st -> 4 <= EEPROM_length (EEPROM st) ->
  exists out st',
    handleTimer st = Done (out, st') /\ wf st'
    /\ EEPROM_length (EEPROM st') = EEPROM_length (EEPROM st)
    /\ ((timer st + 1 < counterIncreaseRatio
         /\ timer st' = timer st + 1
         /\ secondsCounter st' = secondsCounter st
         /\ EEPROM st' = EEPROM st)
        \/ (timer st + 1 = counterIncreaseRatio
            /\ timer st' = 0
            /\ secondsCounter st' = long_add (secondsCounter st) 1
            /\ journal (EEPROM st')
               = journal (EEPROM st)
                 ++ writeLong_calls secondsCounterAddress (secondsCounter st')
            /\ readLong (EEPROM st') secondsCounterAddress
               = Done (secondsCounter st'))).
Proof.
  intros Hwf Hlen. pose proof Hwf as [Hs Ht Ha Hm Hi].
  rewrite counterIncreaseRatio_eq in *.
  assert (int_add (timer st) 1 = timer st + 1) as Hadd
      by (unfold int_add; apply to_int_id; unfold_ints; lia).
  destruct (Z.lt_ge_cases (timer st + 1) 20) as [Hq|Hq].
  - rewrite handleTimer_quiet by (rewrite counterIncreaseRatio_eq; lia).
    rewrite Hadd. eexists _, _. split; [reflexivity|].
    split; [apply wf_set_timer; [done|rewrite counterIncreaseRatio_eq; lia]|].
    split; [done|]. left. done.
  - rewrite handleTimer_second by (rewrite counterIncreaseRatio_eq; lia).
    pose proof (writeLong_Done (EEPROM st) secondsCounterAddress
                  (long_add (secondsCounter st) 1)) as W.
    unfold secondsCounterAddress in *. specialize (W ltac:(lia) ltac:(lia)).
    rewrite W. cbn [mbind outcome_bind mret outcome_ret].
    eexists _, _. split; [reflexivity|].
    pose proof (writeLong_length _ _ _ _ W) as Hl.
    split; [|split; [exact Hl|]].
    + constructor; cbn [secondsCounter timer eventAddress memorySize EEPROM
                        set_EEPROM set_secondsCounter set_timer];
        [apply to_long_range | rewrite counterIncreaseRatio_eq; lia | done
        | by rewrite Hl | done].
    + right. split; [lia|]. split; [done|]. split; [done|]. split.
      * by apply writeLong_journal in W.
      * eapply readLong_writeLong; [apply to_long_range|exact W].
Qed.

Lemma handleTimer_times_S (n : nat) (st st1 : Sketch) (out : list SerialLine) :
  handleTimer st = Done (out, st1) ->
  handleTimer_times (S n) st = handleTimer_times n st1.
Proof. intros H. simpl. by rewrite H. Qed.

Lemma handleTimer_times_spec (n : nat) (st : Sketch) :
  wf st -> 4 <= EEPROM_length (EEPROM st) ->
  exists st',
    handleTimer_times n st = Done st'
    /\ secondsCounter st'
       = to_long (secondsCounter st + (timer st + Z.of_nat n) / counterIncreaseRatio)
    /\ ((timer st + Z.of_nat n) / counterIncreaseRatio = 0 ->
        EEPROM st' = EEPROM st)
    /\ (0 < (timer st + Z.of_nat n) / counterIncreaseRatio ->
        readLong (EEPROM st') secondsCounterAddress = Done (secondsCounter st')).
Proof.
  revert st. induction n as [|n IH]; intros st Hwf Hlen.
  - exists st. pose proof Hwf as [Hs Ht _ _ _].
    rewrite counterIncreaseRatio_eq in *.
    assert ((timer st + Z.of_nat 0) / 20 = 0) as -> by (apply Z.div_small; lia).
    split; [done|]. split; [by rewrite Z.add_0_r, to_long_id|].
    split; [done|lia].
  - destruct (handleTimer_step st Hwf Hlen) as (out & st1 & H1 & Hwf1 & Hl1 & Hc).
    rewrite (handleTimer_times_S _ _ _ _ H1).
    destruct (IH st1 Hwf1 ltac:(lia)) as (st' & Hn & Hsc & He & Hr).
    exists st'. split; [exact Hn|].
    pose proof Hwf as [Hs Ht _ _ _]. rewrite counterIncreaseRatio_eq in *.
    destruct Hc as [(Hq & Ht1 & Hs1 & He1)|(Hq & Ht1 & Hs1 & _ & Hr1)].
    + rewrite Ht1, Hs1, He1 in *.
      replace (timer st + Z.of_nat (S n)) with (timer st + 1 + Z.of_nat n) by lia.
      done.
    + rewrite Ht1, Hs1 in *.
      assert ((timer st + Z.of_nat (S n)) / 20 = 1 + Z.of_nat n / 20) as ->.
      { replace (timer st + Z.of_nat (S n)) with (Z.of_nat n + 1 * 20) by lia.
        rewrite Z.div_add by lia. lia. }
      rewrite Z.add_0_l in *.
      assert (0 <= Z.of_nat n / 20) as Hpos by (apply Z.div_pos; lia).
      split; [|split; [lia|]].
      * rewrite Hsc. unfold long_add. rewrite to_long_add_l. f_equal. lia.
      * intros _. destruct (Z.eq_dec (Z.of_nat n / 20) 0) as [Hz|Hnz].
        -- rewrite (He Hz), Hsc, Hz, Z.add_0_r, to_long_id
             by (unfold long_add; apply to_long_range).
           exact Hr1.
        -- apply Hr. lia.
Qed.

(** C6. From a well-formed state on a device of at least four bytes, [n]
    calls of [handleTimer] always complete and amount to
    [N = (timer + n) / counterIncreaseRatio] seconds ticks: the counter is its
    initial value plus [N] in 32-bit arithmetic, which is the exact sum as
    long as that does not pass [LONG_MAX]; and as soon as one tick happened
    the four bytes at offset 0 decode to the counter in memory.  Since [n] is
    arbitrary this holds after every single tick. *)
Theorem handleTimer_counts_seconds (st : Sketch) (n : nat) :
  wf st -> 4 <= EEPROM_length (EEPROM st) ->
  exists st',
    handleTimer_times n st = Done st'
    /\ secondsCounter st'
       = to_long (secondsCounter st + (timer st + Z.of_nat n) / counterIncreaseRatio)
    /\ (secondsCounter st + (timer st + Z.of_nat n) / counterIncreaseRatio
        <= LONG_MAX ->
        secondsCounter st'
        = secondsCounter st + (timer st + Z.of_nat n) / counterIncreaseRatio)
    /\ (0 < (timer st + Z.of_nat n) / counterIncreaseRatio ->
        readLong (EEPROM st') secondsCounterAddress = Done (secondsCounter st')).
Proof.
  intros Hwf Hlen.
  destruct (handleTimer_times_spec n st Hwf Hlen) as (st' & Hn & Hsc & _ & Hr).
  exists st'. split; [exact Hn|]. split; [exact Hsc|]. split; [|exact Hr].
  intros Hmax. rewrite Hsc. apply to_long_id.
  destruct Hwf as [Hs Ht _ _ _]. rewrite counterIncreaseRatio_eq in *.
  assert (0 <= (timer st + Z.of_nat n) / 20) by (apply Z.div_pos; lia).
  revert Hs Hmax. unfold_ints. lia.
Qed.

Lemma handleTimer_counts_seconds_witness :
  exists st',
    handleTimer_times 60 (set_secondsCounter 2147483645
                            (set_memorySize 16 (power_on (device 16 0))))
    = Done st'
    /\ secondsCounter st' = to_long (2147483645 + (0 + 60) / counterIncreaseRatio)
    /\ (2147483645 + (0 + 60) / counterIncreaseRatio <= LONG_MAX ->
        secondsCounter st' = 2147483645 + (0 + 60) / counterIncreaseRatio)
    /\ (0 < (0 + 60) / counterIncreaseRatio ->
        readLong (EEPROM st') secondsCounterAddress = Done (secondsCounter st')).
Proof.
  apply (handleTimer_counts_seconds
           (set_secondsCounter 2147483645
              (set_memorySize 16 (power_on (device 16 0)))) 60);
    [wf_concrete | vm_compute; discriminate].
Defined.

(** ** C8: the cooldown *)

Lemma cooldown_active (st : Sketch) :
  hasEvent st = true -> 0 <= eventTime st <= eventsDelay ->
  eventTime (cooldown st) = eventTime st + 1
  /\ hasEvent (cooldown st) = negb (eventsDelay <? eventTime st + 1).
Proof.
  intros He Ht. unfold cooldown. rewrite He.
  assert (int_add (eventTime st) 1 = eventTime st + 1) as ->.
  { unfold int_add. apply to_int_id. rewrite eventsDelay_eq in Ht.
    unfold_ints. lia. }
  cbn [eventTime set_eventTime].
  by destruct (eventsDelay <? eventTime st + 1).
Qed.

Lemma cooldown_idle (st : Sketch) :
  hasEvent st = false -> cooldown st = st.
Proof. intros He. unfold cooldown. by rewrite He. Qed.

Lemma pulses_nil : pulses [] = 0%nat.
Proof. reflexivity. Qed.

(** While the cooldown counts, no event is recorded: after an event
    [eventTime] is 1, and the next [eventsDelay] passes are silent. *)
Lemma cooldown_is_silent (pins : list bool) (st : Sketch) :
  hasEvent st = true -> 0 <= eventTime st <= eventsDelay ->
  Z.of_nat (length pins) <= eventsDelay + 1 - eventTime st ->
  pulses (run st pins).1 = 0%nat.
Proof.
  revert st. induction pins as [|pin pins IH]; intros st He Ht Hlen; [done|].
  destruct (loop pin st) as [[out st']|a] eqn:Hl.
  - rewrite (run_cons _ _ _ _ _ Hl). cbn [fst]. rewrite pulses_cons.
    apply loop_inv in Hl as [(_ & -> & Ho)|[(_ & _ & _ & Hl)|(_ & _ & Hne & _)]];
      [| |congruence].
    + rewrite Ho. apply IH; [done|done|]. rewrite length_cons in Hlen. lia.
    + apply handleTimer_frame in Hl as (He' & Ht' & _ & _ & _ & Ho).
      destruct (cooldown_active st He Ht) as [Ht1 He1].
      rewrite Ho. rewrite length_cons in Hlen. revert He1.
      destruct (Z.ltb_spec eventsDelay (eventTime st + 1)) as [Hend|Hgo];
        intros He1.
      * destruct pins; [done|]. rewrite length_cons in Hlen. lia.
      * simpl in He1. apply IH; [congruence|lia|lia].
  - by rewrite (run_fault _ _ _ _ Hl).
Qed.

(** Any [eventsDelay + 1] consecutive passes record at most one event. *)
Lemma one_pulse_per_cooldown (pins : list bool) (st : Sketch) :
  Z.of_nat (length pins) <= eventsDelay + 1 ->
  (pulses (run st pins).1 <= 1)%nat.
Proof.
  revert st. induction pins as [|pin pins IH]; intros st Hlen;
    [unfold pulses; simpl; lia|].
  rewrite length_cons in Hlen.
  destruct (loop pin st) as [[out st']|a] eqn:Hl.
  - rewrite (run_cons _ _ _ _ _ Hl). cbn [fst]. rewrite pulses_cons.
    apply loop_inv in Hl
      as [(_ & -> & Ho)|[(_ & _ & _ & Hl)|(_ & _ & Hne & _ & e1 & e2 & out2 & _ & _ & Hl & ->)]].
    + rewrite Ho. apply (IH st). lia.
    + apply handleTimer_frame in Hl as (_ & _ & _ & _ & _ & Ho).
      rewrite Ho. apply (IH st'). lia.
    + apply handleTimer_frame in Hl as (He' & Ht' & _ & _ & _ & Ho).
      rewrite cooldown_recorded in He', Ht'.
      cbn [hasEvent eventTime set_eventTime recorded set_EEPROM
           set_eventAddress set_hasEvent] in He', Ht'.
      change (events (EventOccurred (secondsCounter st)
                        (int_add (eventAddress st) eventAddressStep) :: out2))
        with ((secondsCounter st, int_add (eventAddress st) eventAddressStep)
              :: events out2).
      assert (pulses (run st' pins).1 = 0%nat) as ->.
      { rewrite eventsDelay_eq in *.
        apply cooldown_is_silent; [done| |]; rewrite Ht', ?eventsDelay_eq; lia. }
      rewrite Ho. simpl. lia.
  - rewrite (run_fault _ _ _ _ Hl). unfold pulses. simpl. lia.
Qed.

Lemma run_take (n : nat) (pins : list bool) (st : Sketch) :
  take n (run st pins).1 = (run st (take n pins)).1.
Proof.
  revert pins st. induction n as [|n IH]; intros pins st; [done|].
  destruct pins as [|pin pins]; [done|].
  destruct (loop pin st) as [[out st']|a] eqn:Hl.
  - rewrite (run_cons _ _ _ _ _ Hl). cbn [fst take].
    change (take (S n) (pin :: pins)) with (pin :: take n pins).
    rewrite (run_cons _ _ _ _ _ Hl). cbn [fst]. by rewrite IH.
  - rewrite (run_fault _ _ _ _ Hl).
    change (take (S n) (pin :: pins)) with (pin :: take n pins).
    by rewrite (run_fault _ _ _ _ Hl).
Qed.

Lemma run_drop (i : nat) (pins : list bool) (st : Sketch) :
  drop i (run st pins).1 = []
  \/ exists st', drop i (run st pins).1 = (run st' (drop i pins)).1.
Proof.
  revert pins st. induction i as [|i IH]; intros pins st.
  - right. by exists st.
  - destruct pins as [|pin pins]; [by left|].
    destruct (loop pin st) as [[out st']|a] eqn:Hl.
    + rewrite (run_cons _ _ _ _ _ Hl). cbn [fst drop]. apply IH.
    + rewrite (run_fault _ _ _ _ Hl). by left.
Qed.

(** C8. Whatever the sensor reads and whatever state the sketch is in, any
    window of [eventsDelay] consecutive passes of [loop] reports at most one
    event. *)
Theorem one_event_per_window (st : Sketch) (pins : list bool) (i : nat) :
  (pulses (take (Z.to_nat eventsDelay) (drop i (run st pins).1)) <= 1)%nat.
Proof.
  destruct (run_drop i pins st) as [->|[st' ->]].
  - rewrite take_nil. unfold pulses. simpl. lia.
  - rewrite run_take. apply one_pulse_per_cooldown.
    rewrite eventsDelay_eq, length_take. lia.
Qed.

(** ** C5: the log reads back *)

Lemma wf_cooldown (st : Sketch) : wf st -> wf (cooldown st).
Proof.
  intros []. unfold cooldown. destruct (hasEvent st); [|by constructor].
  cbn zeta. destruct (eventsDelay <? _); by constructor.
Qed.

Lemma cooldown_frame (st : Sketch) :
  eventAddress (cooldown st) = eventAddress st
  /\ EEPROM (cooldown st) = EEPROM st
  /\ secondsCounter (cooldown st) = secondsCounter st.
Proof.
  unfold cooldown. destruct (hasEvent st); [|done].
  cbn zeta. by destruct (eventsDelay <? _).
Qed.

(** What a completed [handleTimer] leaves alone. *)
Lemma handleTimer_log (st st' : Sketch) (out : list SerialLine) :
  wf st -> handleTimer st = Done (out, st') ->
  wf st'
  /\ EEPROM_length (EEPROM st') = EEPROM_length (EEPROM st)
  /\ (forall a, eventIndexAddress <= a -> a <= INT_MAX + 4 ->
                readLong (EEPROM st') a = readLong (EEPROM st) a).
Proof.
  intros Hwf H. pose proof Hwf as [Hs Ht Ha Hm Hi].
  rewrite counterIncreaseRatio_eq in Ht.
  assert (int_add (timer st) 1 = timer st + 1) as Hadd
      by (unfold int_add; apply to_int_id; unfold_ints; lia).
  apply handleTimer_inv in H as [(Hq & _ & ->)|(Hq & _ & e & W & ->)].
  - split; [|done]. apply wf_set_timer; [done|]. lia.
  - pose proof (writeLong_length _ _ _ _ W) as Hl.
    split; [|split; [exact Hl|]].
    + constructor; cbn [secondsCounter timer eventAddress memorySize EEPROM
                        set_EEPROM set_secondsCounter set_timer];
        [apply to_long_range | rewrite counterIncreaseRatio_eq; lia | done
        | by rewrite Hl | done].
    + intros a Ha4 Hamax.
      cbn [EEPROM set_EEPROM set_secondsCounter set_timer].
      eapply readLong_writeLong_other; [exact int_reach_counter| |exact W|].
      * apply int_reach_between. unfold eventIndexAddress in Ha4.
        revert Hamax. unfold_ints. lia.
      * unfold eventIndexAddress, secondsCounterAddress in *. lia.
Qed.

(** What one completed pass of [loop] does to the log. *)
Lemma loop_log (pin : bool) (st st' : Sketch) (out : list SerialLine) :
  wf st -> loop pin st = Done (out, st') ->
  wf st'
  /\ (forall a, eventIndexAddress + eventAddressStep <= a -> a <= eventAddress st ->
                readLong (EEPROM st') a = readLong (EEPROM st) a)
  /\ ((events out = [] /\ eventAddress st' = eventAddress st)
      \/ (events out = [(secondsCounter st, eventAddress st + eventAddressStep)]
          /\ eventAddress st' = eventAddress st + eventAddressStep
          /\ readLong (EEPROM st') (eventAddress st + eventAddressStep)
             = Done (secondsCounter st))).
Proof.
  intros Hwf H.
  apply loop_inv in H
    as [(_ & -> & Ho)|[(_ & _ & _ & Ht)|(_ & _ & Hne & _ & e1 & e2 & out2 & W1 & W2 & Ht & ->)]].
  - split; [done|]. split; [done|]. by left.
  - pose proof (handleTimer_frame _ _ _ Ht) as (_ & _ & Hea & _ & _ & Ho).
    destruct (handleTimer_log _ _ _ (wf_cooldown _ Hwf) Ht) as (Hwf' & _ & Hfr).
    destruct (cooldown_frame st) as (Ca & Ce & _).
    split; [done|]. split.
    + intros a Ha Hale. destruct Hwf as [_ _ Hea' _ _].
      rewrite Hfr, Ce; [done| |lia].
      unfold eventAddressStep in Ha. lia.
    + left. split; [done|]. congruence.
  - pose proof Hwf as [Hs Htm Ha Hm Hi].
    pose proof (writeLong_inv _ _ _ _ (int_reach_int_add _ _) W1) as [W0 W3].
    assert (int_add (eventAddress st) eventAddressStep
            = eventAddress st + eventAddressStep) as Hp.
    { destruct (int_add_step_cases (eventAddress st)) as [Hp|Hp];
        [unfold eventIndexAddress in Ha; lia | done | lia]. }
    rewrite Hp in W1, W2, W0, W3 |- *.
    pose proof (writeLong_length _ _ _ _ W1) as Hl1.
    pose proof (writeLong_length _ _ _ _ W2) as Hl2.
    assert (wf (cooldown (recorded e2 st))) as Hwf2.
    { apply wf_cooldown. unfold recorded. rewrite Hp.
      clear Ht. constructor; cbn [secondsCounter timer eventAddress memorySize EEPROM
                        set_EEPROM set_eventAddress set_eventTime set_hasEvent];
        [done | done | | congruence | done].
      unfold eventAddressStep, eventIndexAddress in *. 
      rewrite Hm in Hi. lia. }
    pose proof (handleTimer_frame _ _ _ Ht) as (_ & _ & Hea & _ & _ & Ho).
    destruct (handleTimer_log _ _ _ Hwf2 Ht) as (Hwf' & _ & Hfr).
    destruct (cooldown_frame (recorded e2 st)) as (Ca & Ce & _).
    change (EEPROM (recorded e2 st)) with e2 in Ce.
    change (eventAddress (recorded e2 st))
      with (int_add (eventAddress st) eventAddressStep) in Ca.
    rewrite Hp in Ca.
    unfold eventAddressStep, eventIndexAddress in *.
    split; [done|]. split; [|right; split; [|split]].
    + intros a Ha8 Hale.
      assert (int_reach a) as Hra
          by (apply int_reach_between; revert Hi; unfold_ints; lia).
      assert (int_reach (eventAddress st + 4)) as Hrn
          by (apply int_reach_between; revert Hi; unfold_ints; lia).
      rewrite Hfr, Ce by lia.
      rewrite (readLong_writeLong_other _ _ 4 _ _ int_reach_index Hra W2) by lia.
      apply (readLong_writeLong_other _ _ _ _ _ Hrn Hra W1). lia.
    + change (events (EventOccurred (secondsCounter st) (eventAddress st + 4) :: out2))
        with ((secondsCounter st, eventAddress st + 4) :: events out2).
      by rewrite Ho.
    + congruence.
    + assert (int_reach (eventAddress st + 4)) as Hrn
          by (apply int_reach_between; revert Hi; unfold_ints; lia).
      rewrite Hfr, Ce by lia.
      rewrite (readLong_writeLong_other _ _ 4 _ _ int_reach_index Hrn W2) by lia.
      by apply (readLong_writeLong _ _ _ _ Hs W1).
Qed.

Lemma run_Done_inv (pin : bool) (pins : list bool) (st st' : Sketch)
      (outs : list (list SerialLine)) :
  run st (pin :: pins) = (outs, Done st') ->
  exists out st1 outs1,
    loop pin st = Done (out, st1) /\ run st1 pins = (outs1, Done st')
    /\ outs = out :: outs1.
Proof.
  simpl. destruct (loop pin st) as [[out st1]|a]; [|discriminate].
  destruct (run st1 pins) as [outs1 o] eqn:Hr. cbn [fst snd].
  intros [= <- ->]. by exists out, st1, outs1.
Qed.

Lemma run_log (pins : list bool) (st st' : Sketch) (outs : list (list SerialLine)) :
  wf st -> run st pins = (outs, Done st') ->
  wf st'
  /\ eventAddress st'
     = eventAddress st + Z.of_nat (length (events (concat outs))) * eventAddressStep
  /\ (forall a, eventIndexAddress + eventAddressStep <= a -> a <= eventAddress st ->
                readLong (EEPROM st') a = readLong (EEPROM st) a)
  /\ map (readLong (EEPROM st'))
         (slots (eventAddress st + eventAddressStep)
                (length (events (concat outs))))
     = map (fun ev => Done ev.1) (events (concat outs))
  /\ map snd (events (concat outs))
     = slots (eventAddress st + eventAddressStep) (length (events (concat outs))).
Proof.
  revert st outs. induction pins as [|pin pins IH]; intros st outs Hwf Hr.
  - injection Hr as <- <-. simpl. split; [done|]. split; [lia|]. done.
  - apply run_Done_inv in Hr as (out & st1 & outs1 & Hl & Hr & ->).
    destruct (loop_log _ _ _ _ Hwf Hl) as (Hwf1 & Hfr1 & Hc).
    destruct (IH st1 outs1 Hwf1 Hr) as (Hwf' & Hea & Hfr & Hsl & Had).
    pose proof Hwf as [_ _ Ha _ _].
    cbn [concat]. rewrite events_app.
    destruct Hc as [[Ho He]|(Ho & He & Hrd)]; rewrite Ho, He in *.
    + cbn [app]. split; [done|]. split; [done|]. split; [|done].
      intros a Ha8 Hale. rewrite Hfr by done. by apply Hfr1.
    + cbn [app length slots map fst]. split; [done|]. split; [lia|].
      unfold eventAddressStep, eventIndexAddress in *.
      split; [|split].
      * intros a Ha8 Hale. rewrite Hfr by lia. by apply Hfr1.
      * f_equal; [|exact Hsl]. rewrite Hfr by lia. exact Hrd.
      * cbn [snd]. f_equal. exact Had.
Qed.

(** Runs that complete read back.  Start from a well-formed state with an
    empty log ([eventAddress] at the index offset) and let the loop run over
    any sensor readings.  If the run completes, that is, if every access to
    the device stayed inside it, and K events were recorded, [eventAddress] is
    4 + K * 4, and [readLong] over the K slots 8, 12, ... returns the K values
    of [secondsCounter] the events were recorded with, in the order of
    recording. *)
Theorem appended_events_read_back (st st' : Sketch) (pins : list bool)
        (outs : list (list SerialLine)) :
  wf st -> eventAddress st = eventIndexAddress ->
  run st pins = (outs, Done st') ->
  eventAddress st'
  = eventIndexAddress + Z.of_nat (length (events (concat outs))) * eventAddressStep
  /\ map (readLong (EEPROM st'))
         (slots (eventIndexAddress + eventAddressStep)
                (length (events (concat outs))))
     = map (fun ev => Done ev.1) (events (concat outs)).
Proof.
  intros Hwf Hea Hr.
  destruct (run_log pins st st' outs Hwf Hr) as (_ & He & _ & Hs & _).
  rewrite Hea in *. done.
Qed.

Lemma appended_events_read_back_witness :
  exists st' outs,
    run (set_secondsCounter 5
           (set_eventAddress 4 (set_memorySize 32 (power_on (device 32 0)))))
        [true; false; false]
    = (outs, Done st')
    /\ events (concat outs) = [(5, 8)]
    /\ eventAddress st'
       = eventIndexAddress
         + Z.of_nat (length (events (concat outs))) * eventAddressStep
    /\ map (readLong (EEPROM st'))
           (slots (eventIndexAddress + eventAddressStep)
                  (length (events (concat outs))))
       = map (fun ev => Done ev.1) (events (concat outs)).
Proof.
  eexists _, _. split; [vm_compute; reflexivity|]. split; [reflexivity|].
  apply (appended_events_read_back
           (set_secondsCounter 5
              (set_eventAddress 4 (set_memorySize 32 (power_on (device 32 0)))))
           _ [true; false; false] _);
    [wf_concrete | reflexivity | vm_compute; reflexivity].
Defined.

(** Three events on a blank 32-byte device with the sensor held high: they
    are recorded in passes 0, 1201 and 2402, at seconds 0, 60 and 120. *)
Example three_events_read_back :
  exists st',
    (run (set_eventAddress 4 (set_memorySize 32 (power_on (device 32 0))))
         (held true 2403)).2 = Done st'
    /\ events (concat (run (set_eventAddress 4
                              (set_memorySize 32 (power_on (device 32 0))))
                           (held true 2403)).1)
       = [(0, 8); (60, 12); (120, 16)]
    /\ eventAddress st' = 16
    /\ map (readLong (EEPROM st')) [8; 12; 16] = [Done 0; Done 60; Done 120].
Proof.
  eexists. split; [vm_compute; reflexivity|].
  split; [vm_compute; reflexivity|]. split; vm_compute; reflexivity.
Qed.

(** C5 fails on the sketch, by the bound of the full check (the defect of
    C4).  A blank 32-byte device, the sensor held high: after 7206 passes the
    log is empty no more, six events are stored in the slots 8 to 28 and read
    back, and the log is not full.  The pass that appends the seventh event
    passes address 32 to [EEPROM.write]; the slot 4 + 7 * 4 = 32 the seventh
    record belongs to is outside the device and cannot be read back. *)
Theorem seventh_event_is_not_read_back :
  exists st st6,
    setup false (device 32 0) = Done st
    /\ eventAddress st = eventIndexAddress
    /\ EEPROM_length (EEPROM st) = 32
    /\ (run st (held true 7206)).2 = Done st6
    /\ pulses (run st (held true 7206)).1 = 6%nat
    /\ eventAddress st6 = eventIndexAddress + 6 * eventAddressStep
    /\ map (readLong (EEPROM st6)) (slots (eventIndexAddress + eventAddressStep) 6)
       = [Done 0; Done 60; Done 120; Done 180; Done 240; Done 300]
    /\ isMemoryFull st6 = false /\ hasEvent st6 = false
    /\ loop true st6 = OutOfRange 32
    /\ readLong (EEPROM st6) (eventIndexAddress + 7 * eventAddressStep)
       = OutOfRange 32.
Proof.
  eexists. eexists. split; [vm_compute; reflexivity|].
  split; [reflexivity|]. split; [reflexivity|].
  split; [vm_compute; reflexivity|]. split; [vm_compute; reflexivity|].
  split; [reflexivity|]. split; [vm_compute; reflexivity|].
  split; [reflexivity|]. split; [reflexivity|].
  split; vm_compute; reflexivity.
Qed.

(** ** C10: a stored index is taken as it is *)

Lemma int_add_mod4 (a : Z) : int_add a eventAddressStep mod 4 = a mod 4.
Proof.
  unfold int_add, eventAddressStep. unfold_ints. Z.div_mod_to_equations. lia.
Qed.

(** Every event of a run is written at an address congruent modulo 4 to the
    index the run started with. *)
Lemma run_event_alignment (pins : list bool) (st : Sketch) (t a : Z) :
  (t, a) ∈ events (concat (run st pins).1) -> a mod 4 = eventAddress st mod 4.
Proof.
  revert st. induction pins as [|pin pins IH]; intros st Hin.
  - simpl in Hin. by apply elem_of_nil in Hin.
  - destruct (loop pin st) as [[out st']|address] eqn:Hl.
    + rewrite (run_cons _ _ _ _ _ Hl) in Hin. cbn [fst concat] in Hin.
      rewrite events_app in Hin. apply elem_of_app in Hin as [Hin|Hin].
      * apply loop_inv in Hl
          as [(_ & -> & Ho)|[(_ & _ & _ & Ht)|(_ & _ & _ & _ & e1 & e2 & out2 & _ & _ & Ht & ->)]].
        -- rewrite Ho in Hin. by apply elem_of_nil in Hin.
        -- apply handleTimer_frame in Ht as (_ & _ & _ & _ & _ & Ho).
           rewrite Ho in Hin. by apply elem_of_nil in Hin.
        -- apply handleTimer_frame in Ht as (_ & _ & _ & _ & _ & Ho).
           change (events (EventOccurred (secondsCounter st)
                             (int_add (eventAddress st) eventAddressStep) :: out2))
             with ((secondsCounter st, int_add (eventAddress st) eventAddressStep)
                   :: events out2) in Hin.
           rewrite Ho in Hin. apply list_elem_of_singleton in Hin.
           injection Hin as -> ->. apply int_add_mod4.
      * rewrite (IH st' Hin).
        apply loop_inv in Hl
          as [(_ & -> & _)|[(_ & _ & _ & Ht)|(_ & _ & _ & _ & e1 & e2 & out2 & _ & _ & Ht & _)]].
        -- done.
        -- apply handleTimer_frame in Ht as (_ & _ & -> & _).
           by destruct (cooldown_frame st) as (-> & _).
        -- apply handleTimer_frame in Ht as (_ & _ & -> & _).
           destruct (cooldown_frame (recorded e2 st)) as (-> & _).
           apply int_add_mod4.
    + rewrite (run_fault _ _ _ _ Hl) in Hin. simpl in Hin.
      by apply elem_of_nil in Hin.
Qed.

(** C10, within the range of [int].  A stored index [v] with
    [0 < v <= INT_MAX] is taken as [eventAddress] as it is: [setup] completes
    without writing, whether or not [v] is a multiple of 4 and whether or not
    it exceeds the device, provided the dump it prints when the read-only
    switch is high reads inside the device; [isMemoryFull] then is just
    [memorySize < v]; and every event recorded afterwards lands on an address
    congruent to [v] modulo 4. *)
Theorem setup_accepts_stored_index (e : EEPROMClass) (readOnlySwitch : bool) (v : Z) :
  readLong e eventIndexAddress = Done v -> 0 < v <= INT_MAX ->
  (readOnlySwitch = true ->
   forall address, printMemoryStatus e <> Some (OutOfRange address)) ->
  exists st,
    setup readOnlySwitch e = Done st
    /\ eventAddress st = v
    /\ EEPROM st = e
    /\ isMemoryFull st = (to_int (EEPROM_length e) <? v)
    /\ forall pins t a,
         (t, a) ∈ events (concat (run st pins).1) -> a mod 4 = v mod 4.
Proof.
  intros R Hv Hdump.
  destruct (readLong_inv _ _ _ int_reach_index R) as (_ & H3 & _).
  assert (exists c, readLong e secondsCounterAddress = Done c) as [c Rc].
  { apply readLong_total; unfold secondsCounterAddress, eventIndexAddress in *;
      lia. }
  assert (to_int v = v) as Hi by (apply to_int_id; revert Hv; unfold_ints; lia).
  assert (exists st, setup readOnlySwitch e = Done st
                     /\ eventAddress st = v /\ EEPROM st = e
                     /\ memorySize st = to_int (EEPROM_length e))
    as (st & Hs & Hea & He & Hm).
  { rewrite setup_unfold.
    rewrite (initializeEventAddress_keep _ v) by first [exact R | rewrite Hi; lia].
    cbn [mbind outcome_bind EEPROM set_eventAddress set_memorySize power_on].
    rewrite Rc. cbn [mbind outcome_bind mret outcome_ret]. rewrite Hi.
    destruct readOnlySwitch.
    - destruct (printMemoryStatus e) as [[lines|address]|] eqn:Hd;
        [|by destruct (Hdump eq_refl address)|];
        (eexists; split; [reflexivity|]; destruct (c <=? 0); done).
    - eexists. split; [reflexivity|]. destruct (c <=? 0); done. }
  exists st. split; [exact Hs|]. split; [exact Hea|]. split; [exact He|]. split.
  - unfold isMemoryFull. by rewrite Hm, Hea.
  - intros pins t a Hin. rewrite <- Hea. by eapply run_event_alignment.
Qed.

Lemma setup_accepts_stored_index_witness :
  exists st,
    setup true (device_with 16 7 1022) = Done st
    /\ eventAddress st = 1022
    /\ EEPROM st = device_with 16 7 1022
    /\ isMemoryFull st = (to_int (EEPROM_length (device_with 16 7 1022)) <? 1022)
    /\ forall pins t a,
         (t, a) ∈ events (concat (run st pins).1) -> a mod 4 = 1022 mod 4.
Proof.
  apply (setup_accepts_stored_index (device_with 16 7 1022) true 1022);
    [vm_compute; reflexivity
    | vm_compute; split; first [reflexivity | discriminate]
    | intros _ address; vm_compute; discriminate].
Defined.

(** C10 as stated fails beyond the range of [int].  The stored index 65540
    is positive, yet [eventAddress] holds its low 16 bits, 4; the stored index
    40000 reads as a negative [int] and is reset to the index offset. *)
Lemma setup_truncates_stored_index :
  (exists st,
     readLong (device_with 16 7 65540) eventIndexAddress = Done 65540
     /\ setup false (device_with 16 7 65540) = Done st
     /\ eventAddress st = 4
     /\ eventAddress st <> 65540)
  /\ (exists st,
        readLong (device_with 16 7 40000) eventIndexAddress = Done 40000
        /\ setup false (device_with 16 7 40000) = Done st
        /\ eventAddress st = 4
        /\ eventAddress st <> 40000).
Proof.
  split; eexists; (split; [vm_compute; reflexivity|]);
    (split; [vm_compute; reflexivity|]); (split; [reflexivity|discriminate]).
Qed.

(** * Further properties of the code *)

(** ** The codec at the edge of the device *)

Lemma EEPROM_read_OutOfRange (e : EEPROMClass) (i a : Z) :
  EEPROM_read e i = OutOfRange a ->
  a = to_int i /\ ~ (0 <= to_int i < EEPROM_length e).
Proof.
  unfold EEPROM_read. cbn zeta. destruct (in_device e (to_int i)) eqn:H.
  - apply in_device_iff in H.
    destruct (lookup_in_device e (to_int i) H) as [b ->]. discriminate.
  - intros [= <-]. split; [done|by apply in_device_false].
Qed.

(** The address a failing [readLong] reports is the [int] value of one of its
    four byte addresses, and lies outside the device. *)
Lemma readLong_OutOfRange (e : EEPROMClass) (a address : Z) :
  readLong e a = OutOfRange address ->
  (exists k, 0 <= k <= 3 /\ address = to_int (a + k))
  /\ ~ (0 <= address < EEPROM_length e).
Proof.
  unfold readLong. intros H.
  apply bind_OutOfRange in H as [H|(b0 & _ & H)].
  { apply EEPROM_read_OutOfRange in H as [-> H].
    split; [exists 0; by rewrite Z.add_0_r|done]. }
  apply bind_OutOfRange in H as [H|(b1 & _ & H)].
  { apply EEPROM_read_OutOfRange in H as [-> H]. split; [by exists 1|done]. }
  apply bind_OutOfRange in H as [H|(b2 & _ & H)].
  { apply EEPROM_read_OutOfRange in H as [-> H]. split; [by exists 2|done]. }
  apply bind_OutOfRange in H as [H|(b3 & _ & H)].
  { apply EEPROM_read_OutOfRange in H as [-> H]. split; [by exists 3|done]. }
  discriminate.
Qed.

Lemma readLong_inv_int (e : EEPROMClass) (a v : Z) :
  readLong e a = Done v -> 0 <= to_int a /\ to_int a + 3 < EEPROM_length e.
Proof.
  rewrite readLong_narrow. intros R.
  by apply readLong_inv in R as (? & ? & _); [|apply int_reach_to_int].
Qed.

(** A [readLong] that cannot have its four cells leaves the device. *)
Lemma readLong_leaves_device (e : EEPROMClass) (a : Z) :
  ~ (0 <= to_int a /\ to_int a + 3 < EEPROM_length e) ->
  exists k,
    0 <= k <= 3 /\ readLong e a = OutOfRange (to_int (a + k))
    /\ ~ (0 <= to_int (a + k) < EEPROM_length e).
Proof.
  intros Hout. destruct (readLong e a) as [x|address] eqn:R.
  - apply readLong_inv_int in R. tauto.
  - apply readLong_OutOfRange in R as [(k & Hk & ->) Hn]. by exists k.
Qed.

(** A completed [writeLong], at the address as the [int] the EEPROM library
    takes it for, stays inside the device, makes exactly its four calls of
    [EEPROM.write] in ascending address order, keeps the size, and leaves
    every other cell, hence every long stored clear of its four bytes, as it
    was. *)
Theorem writeLong_touches_four_cells (e e' : EEPROMClass) (a v : Z) :
  writeLong e a v = Done e' ->
  0 <= to_int a /\ to_int a + 3 < EEPROM_length e
  /\ EEPROM_length e' = EEPROM_length e
  /\ journal e' = journal e ++ writeLong_calls (to_int a) v
  /\ (forall i, 0 <= i -> i < to_int a \/ to_int a + 3 < i ->
                cells e' !! Z.to_nat i = cells e !! Z.to_nat i)
  /\ (forall a', to_int a' + 3 < to_int a \/ to_int a + 3 < to_int a' ->
                 readLong e' a' = readLong e a').
Proof.
  intros W. destruct (writeLong_inv_int _ _ _ _ W) as [H0 H3].
  pose proof (writeLong_length _ _ _ _ W) as Hl.
  rewrite writeLong_narrow in W.
  pose proof (int_reach_to_int a) as Hr.
  split; [done|]. split; [done|]. split; [done|].
  split; [by apply writeLong_journal|]. split.
  - intros i Hi Hne. by eapply writeLong_other.
  - intros a' Hne. rewrite (readLong_narrow e'), (readLong_narrow e).
    eapply readLong_writeLong_other; [exact Hr|apply int_reach_to_int|done..].
Qed.

Lemma writeLong_touches_four_cells_witness :
  0 <= to_int 8 /\ to_int 8 + 3 < EEPROM_length (device 16 7)
  /\ EEPROM_length (put_byte (put_byte (put_byte (put_byte (device 16 7)
        8 0) 9 0) 10 1) 11 44) = EEPROM_length (device 16 7)
  /\ journal (put_byte (put_byte (put_byte (put_byte (device 16 7)
        8 0) 9 0) 10 1) 11 44)
     = journal (device 16 7) ++ writeLong_calls (to_int 8) 300
  /\ (forall i, 0 <= i -> i < to_int 8 \/ to_int 8 + 3 < i ->
        cells (put_byte (put_byte (put_byte (put_byte (device 16 7)
                 8 0) 9 0) 10 1) 11 44) !! Z.to_nat i
        = cells (device 16 7) !! Z.to_nat i)
  /\ (forall a', to_int a' + 3 < to_int 8 \/ to_int 8 + 3 < to_int a' ->
        readLong (put_byte (put_byte (put_byte (put_byte (device 16 7)
                    8 0) 9 0) 10 1) 11 44) a'
        = readLong (device 16 7) a').
Proof.
  apply (writeLong_touches_four_cells (device 16 7) _ 8 300).
  vm_compute. reflexivity.
Defined.

(** Outside the device both routines make an access that is not theirs to
    make: when the four cells of [address], taken as the [int] the EEPROM
    library receives, do not all lie in the device, [writeLong] passes to
    [EEPROM.write], and [readLong] to [EEPROM.read], the [int] value of one of
    [address] to [address + 3] that is not in the device. *)
Theorem codec_access_outside_device (e : EEPROMClass) (a v : Z) :
  ~ (0 <= to_int a /\ to_int a + 3 < EEPROM_length e) ->
  (exists k,
     0 <= k <= 3 /\ writeLong e a v = OutOfRange (to_int (a + k))
     /\ ~ (0 <= to_int (a + k) < EEPROM_length e))
  /\ (exists k,
        0 <= k <= 3 /\ readLong e a = OutOfRange (to_int (a + k))
        /\ ~ (0 <= to_int (a + k) < EEPROM_length e)).
Proof.
  intros Hout. split; [|by apply readLong_leaves_device].
  destruct (writeLong e a v) as [e'|address] eqn:W.
  - apply writeLong_inv_int in W. tauto.
  - apply writeLong_OutOfRange in W as [(k & Hk & ->) Hn]. by exists k.
Qed.

Lemma codec_access_outside_device_witness :
  (exists k,
     0 <= k <= 3 /\ writeLong (device 16 0) 14 (-1) = OutOfRange (to_int (14 + k))
     /\ ~ (0 <= to_int (14 + k) < EEPROM_length (device 16 0)))
  /\ (exists k,
        0 <= k <= 3 /\ readLong (device 16 0) 14 = OutOfRange (to_int (14 + k))
        /\ ~ (0 <= to_int (14 + k) < EEPROM_length (device 16 0))).
Proof.
  apply (codec_access_outside_device (device 16 0) 14 (-1)).
  vm_compute. intros [_ H]. discriminate H.
Defined.

(** An address beyond the [int] range reaches the device as its low 16 bits:
    a long written at 65544 on a 16-byte device lands in the cells 8 to 11. *)
Example writeLong_narrows_address :
  (e ← writeLong (device 16 0) 65544 (-1); mret (cells e))
  = Done [0; 0; 0; 0; 0; 0; 0; 0; 255; 255; 255; 255; 0; 0; 0; 0]
  /\ (e ← writeLong (device 16 0) 65544 (-1); readLong e 8) = Done (-1).
Proof. vm_compute. done. Qed.

(** ** The dump, slot by slot *)

Lemma readLong_blank (e : EEPROMClass) (a : Z) :
  blank e -> 0 <= a -> a + 3 < EEPROM_length e -> readLong e a = Done 0.
Proof.
  intros Hb H0 H3.
  destruct (lookup_in_device e a) as [b0 L0]; [lia|].
  destruct (lookup_in_device e (a + 1)) as [b1 L1]; [lia|].
  destruct (lookup_in_device e (a + 2)) as [b2 L2]; [lia|].
  destruct (lookup_in_device e (a + 3)) as [b3 L3]; [lia|].
  rewrite (readLong_cells _ _ _ _ _ _ H0 H3 L0 L1 L2 L3).
  rewrite (Hb _ _ L0), (Hb _ _ L1), (Hb _ _ L2), (Hb _ _ L3). reflexivity.
Qed.

Lemma long_add_slot (e : EEPROMClass) (i : Z) :
  0 <= i < EEPROM_length e -> long_add i 4 = i + 4.
Proof.
  intros Hi. destruct (EEPROM_length_bounds e) as [Hb _].
  unfold long_add. apply to_long_id. revert Hb. unfold_ints. lia.
Qed.

(** The loop of the dump ends by its own condition. *)
Lemma printMemoryStatus_loop_terminates (fuel : nat) (e : EEPROMClass)
      (i zeroCount : Z) :
  0 <= i -> (0 < fuel)%nat -> EEPROM_length e - i < Z.of_nat fuel ->
  printMemoryStatus_loop fuel e i zeroCount <> None.
Proof.
  revert i zeroCount.
  induction fuel as [|fuel IH]; intros i zc Hi Hpos Hfuel; [lia|].
  cbn [printMemoryStatus_loop].
  destruct (Z.ltb_spec i (EEPROM_length e)) as [Hlt|Hge]; [|done].
  destruct (readLong e i) as [value|address]; [|done].
  destruct (4 <? _); [done|].
  rewrite (long_add_slot e) by lia.
  specialize (IH (i + 4) (if value =? 0 then int_add zc 1 else int_add zc (-1))).
  destruct (printMemoryStatus_loop fuel e (i + 4) _) as [[lines|address]|];
    [done|done|].
  apply IH; lia.
Qed.

Lemma printMemoryStatus_terminates (e : EEPROMClass) :
  printMemoryStatus e <> None.
Proof.
  unfold printMemoryStatus. destruct (EEPROM_length_bounds e).
  apply printMemoryStatus_loop_terminates; lia.
Qed.

Lemma printMemoryStatus_loop_spec (fuel : nat) (e : EEPROMClass) (i zeroCount : Z) :
  EEPROM_length e mod 4 = 0 ->
  0 <= i -> i mod 4 = 0 ->
  (0 < fuel)%nat -> EEPROM_length e - i < Z.of_nat fuel ->
  exists lines,
    printMemoryStatus_loop fuel e i zeroCount = Some (Done lines)
    /\ (forall a v, Slot a v ∈ lines ->
          i <= a /\ a mod 4 = 0 /\ a + 3 < EEPROM_length e
          /\ readLong e a = Done v)
    /\ dump_addresses lines = slots i (length (dump_addresses lines)).
Proof.
  intros Hal. revert i zeroCount.
  induction fuel as [|fuel IH]; intros i zc Hi Hi4 Hf Hfuel; [lia|].
  cbn [printMemoryStatus_loop].
  destruct (Z.ltb_spec i (EEPROM_length e)) as [Hlt|Hge].
  - assert (i + 4 <= EEPROM_length e) as Hroom
        by (revert Hal Hi4; Z.div_mod_to_equations; lia).
    destruct (readLong_total e i) as [value R]; [lia..|]. rewrite R.
    set (zc' := if value =? 0 then int_add zc 1 else int_add zc (-1)).
    destruct (4 <? zc').
    + eexists. split; [reflexivity|]. split.
      * intros a v Hin. apply elem_of_cons in Hin as [[= -> ->]|Hin].
        -- split; [lia|]. split; [done|]. split; [lia|done].
        -- apply list_elem_of_singleton in Hin. discriminate.
      * reflexivity.
    + rewrite (long_add_slot e) by lia.
      destruct (IH (i + 4) zc') as (lines & Hl & Hs & Ha);
        [lia | revert Hi4; Z.div_mod_to_equations; lia | lia | lia |].
      rewrite Hl. eexists. split; [reflexivity|]. split.
      * intros a v Hin. apply elem_of_cons in Hin as [[= -> ->]|Hin].
        -- split; [lia|]. split; [done|]. split; [lia|done].
        -- destruct (Hs a v Hin) as (? & ? & ? & ?).
           split; [lia|]. done.
      * change (dump_addresses (Slot i value :: lines))
          with (i :: dump_addresses lines).
        cbn [length slots]. f_equal. exact Ha.
  - exists []. split; [reflexivity|]. split; [|reflexivity].
    intros a v Hin. by apply elem_of_nil in Hin.
Qed.

(** On a device whose size is a multiple of 4 the dump reads inside it. *)
Lemma printMemoryStatus_aligned (e : EEPROMClass) :
  EEPROM_length e mod 4 = 0 ->
  exists lines, printMemoryStatus e = Some (Done lines).
Proof.
  intros Hal. destruct (EEPROM_length_bounds e) as [_ Hl].
  destruct (printMemoryStatus_loop_spec (S (length (cells e))) e 0 0)
    as (lines & H & _); [done | lia | done | lia | lia |].
  by exists lines.
Qed.

(** ** Start-up, in full *)

(** [setup] on a device of at least eight bytes, by the stored index: the
    two restores complete, and with the switch high the dump follows. *)
Lemma setup_cases (readOnlySwitch : bool) (e : EEPROMClass) :
  8 <= EEPROM_length e ->
  exists v c e1,
    readLong e eventIndexAddress = Done v
    /\ readLong e1 secondsCounterAddress = Done c
    /\ EEPROM_length e1 = EEPROM_length e
    /\ ((0 < to_int v /\ e1 = e)
        \/ (to_int v <= 0
            /\ writeLong e eventIndexAddress (to_int v) = Done e1
            /\ readLong e1 eventIndexAddress = Done (to_int v)))
    /\ setup readOnlySwitch e
       = (if readOnlySwitch && match printMemoryStatus e1 with
                               | Some (OutOfRange _) => true
                               | _ => false
                               end
          then match printMemoryStatus e1 with
               | Some (OutOfRange address) => OutOfRange address
               | _ => OutOfRange 0
               end
          else
            Done {| secondsCounter := if c <=? 0 then 0 else c;
                    timer := 0;
                    memorySize := to_int (EEPROM_length e);
                    eventAddress := if to_int v <=? 0 then eventIndexAddress
                                    else to_int v;
                    isReadOnly := readOnlySwitch;
                    hasEvent := false;
                    eventTime := 0;
                    EEPROM := e1 |}).
Proof.
  intros Hlen.
  destruct (readLong_total e eventIndexAddress) as [v R];
    [unfold eventIndexAddress; lia..|].
  set (st0 := set_memorySize (to_int (EEPROM_length e)) (power_on e)).
  destruct (Z.leb_spec (to_int v) 0) as [Hv|Hv].
  - destruct (initializeEventAddress_reset st0 v R Hv) as (e1 & W & Hi & R1).
    pose proof (writeLong_length _ _ _ _ W) as Hl.
    cbn [EEPROM st0 set_memorySize power_on] in Hl.
    destruct (readLong_total e1 secondsCounterAddress) as [c Rc];
      [unfold secondsCounterAddress; lia..|].
    exists v, c, e1. split; [done|]. split; [done|]. split; [done|].
    split; [right; done|].
    rewrite setup_unfold. fold st0. rewrite Hi.
    cbn [mbind outcome_bind EEPROM set_eventAddress set_EEPROM].
    rewrite Rc. cbn [mbind outcome_bind mret outcome_ret].
    destruct (Z.leb_spec (to_int v) 0); [|lia].
    destruct readOnlySwitch; [|destruct (c <=? 0); reflexivity].
    destruct (printMemoryStatus e1) as [[lines|address]|];
      cbn [andb]; destruct (c <=? 0); reflexivity.
  - destruct (readLong_total e secondsCounterAddress) as [c Rc];
      [unfold secondsCounterAddress; lia..|].
    exists v, c, e. split; [done|]. split; [done|]. split; [done|].
    split; [left; done|].
    rewrite setup_unfold. fold st0.
    rewrite (initializeEventAddress_keep st0 v R Hv).
    cbn [mbind outcome_bind EEPROM set_eventAddress st0 set_memorySize power_on].
    rewrite Rc. cbn [mbind outcome_bind mret outcome_ret].
    destruct (Z.leb_spec (to_int v) 0); [lia|].
    destruct readOnlySwitch; [|destruct (c <=? 0); reflexivity].
    destruct (printMemoryStatus e) as [[lines|address]|];
      cbn [andb]; destruct (c <=? 0); reflexivity.
Qed.

(** The same with the dump known to read to the end of the device. *)
Lemma setup_spec (readOnlySwitch : bool) (e : EEPROMClass) :
  8 <= EEPROM_length e ->
  (readOnlySwitch = true -> EEPROM_length e mod 4 = 0) ->
  exists v c e1,
    readLong e eventIndexAddress = Done v
    /\ readLong e1 secondsCounterAddress = Done c
    /\ EEPROM_length e1 = EEPROM_length e
    /\ ((0 < to_int v /\ e1 = e)
        \/ (to_int v <= 0
            /\ writeLong e eventIndexAddress (to_int v) = Done e1
            /\ readLong e1 eventIndexAddress = Done (to_int v)))
    /\ setup readOnlySwitch e
       = Done {| secondsCounter := if c <=? 0 then 0 else c;
                 timer := 0;
                 memorySize := to_int (EEPROM_length e);
                 eventAddress := if to_int v <=? 0 then eventIndexAddress
                                 else to_int v;
                 isReadOnly := readOnlySwitch;
                 hasEvent := false;
                 eventTime := 0;
                 EEPROM := e1 |}.
Proof.
  intros Hlen Hal.
  destruct (setup_cases readOnlySwitch e Hlen)
    as (v & c & e1 & R & Rc & Hl & Hcase & Hs).
  exists v, c, e1. do 4 (split; [done|]). rewrite Hs.
  destruct readOnlySwitch; [|reflexivity].
  destruct (printMemoryStatus_aligned e1) as [lines ->]; [rewrite Hl; auto|].
  reflexivity.
Qed.

(** On every device of at least eight bytes, and, when the read-only switch
    is high, of a size that is a multiple of 4 (the dump [setup] then prints
    reads the device in steps of four bytes, to its end), every access of
    [setup] stays inside the device and [setup] completes.  It latches the
    switch into [isReadOnly], takes [memorySize] from the device, starts with
    no active event, a positive [eventAddress] and a non-negative
    [secondsCounter]; it calls [EEPROM.write] either not at all or exactly for
    the four bytes of the index, whatever the switch reads; and what the
    device then holds is what a later [setup] reads back as this index and
    this counter. *)
Theorem setup_completes (readOnlySwitch : bool) (e : EEPROMClass) :
  8 <= EEPROM_length e ->
  (readOnlySwitch = true -> EEPROM_length e mod 4 = 0) ->
  exists st,
    setup readOnlySwitch e = Done st
    /\ isReadOnly st = readOnlySwitch
    /\ memorySize st = to_int (EEPROM_length e)
    /\ hasEvent st = false /\ timer st = 0
    /\ 0 < eventAddress st <= INT_MAX
    /\ 0 <= secondsCounter st <= LONG_MAX
    /\ (journal (EEPROM st) = journal e
        \/ exists v, v <= 0
             /\ journal (EEPROM st)
                = journal e ++ writeLong_calls eventIndexAddress v)
    /\ index_persisted st /\ counter_persisted st.
Proof.
  intros Hlen Hal.
  destruct (setup_spec readOnlySwitch e Hlen Hal)
    as (v & c & e1 & R & Rc & Hl & Hcase & Hs).
  eexists. split; [exact Hs|].
  cbn [isReadOnly memorySize hasEvent timer eventAddress secondsCounter EEPROM].
  do 4 (split; [reflexivity|]).
  pose proof (to_int_range v) as Hr. unfold int_range in Hr.
  pose proof (readLong_range _ _ _ Rc) as Hc. unfold long_range in Hc.
  split.
  { destruct (Z.leb_spec (to_int v) 0); unfold eventIndexAddress;
      [unfold_ints|]; lia. }
  split; [destruct (Z.leb_spec c 0); unfold LONG_MAX in *; unfold_ints; lia|].
  split; [|split].
  - destruct Hcase as [[_ ->]|(Hv & W & _)]; [by left|right].
    exists (to_int v). split; [done|].
    by apply writeLong_journal; [exact int_reach_index|].
  - unfold index_persisted. cbn [EEPROM eventAddress].
    destruct Hcase as [[Hv ->]|(Hv & W & R1)].
    + exists v. split; [done|]. left.
      destruct (Z.leb_spec (to_int v) 0); [lia|done].
    + exists (to_int v). split; [done|]. right. rewrite to_int_idem.
      destruct (Z.leb_spec (to_int v) 0); [done|lia].
  - unfold counter_persisted. cbn [EEPROM secondsCounter].
    exists c. split; [done|].
    destruct (Z.leb_spec c 0); [left; done|right; done].
Qed.

Lemma setup_completes_witness :
  exists st,
    setup true (device 512 255) = Done st
    /\ isReadOnly st = true
    /\ memorySize st = to_int (EEPROM_length (device 512 255))
    /\ hasEvent st = false /\ timer st = 0
    /\ 0 < eventAddress st <= INT_MAX
    /\ 0 <= secondsCounter st <= LONG_MAX
    /\ (journal (EEPROM st) = journal (device 512 255)
        \/ exists v, v <= 0
             /\ journal (EEPROM st)
                = journal (device 512 255) ++ writeLong_calls eventIndexAddress v)
    /\ index_persisted st /\ counter_persisted st.
Proof.
  apply (setup_completes true (device 512 255));
    [vm_compute; discriminate | intros _; reflexivity].
Defined.

(** With the read-only switch on, [setup] still writes: the index write-back
    comes before the switch is read.  On any device whose stored index reads
    [<= 0] and whose size is a multiple of 4 (so that the dump of read-only
    mode reads inside it), the four index bytes are written even though the
    sketch then runs read-only. *)
Theorem setup_writes_before_reading_switch (e : EEPROMClass) (v : Z) :
  readLong e eventIndexAddress = Done v -> to_int v <= 0 ->
  EEPROM_length e mod 4 = 0 ->
  exists st,
    setup true e = Done st
    /\ isReadOnly st = true
    /\ journal (EEPROM st)
       = journal e ++ writeLong_calls eventIndexAddress (to_int v).
Proof.
  intros R Hv Hal.
  destruct (readLong_inv _ _ _ int_reach_index R) as (_ & H3 & _).
  destruct (setup_spec true e) as (v' & c & e1 & R' & Rc & Hl & Hcase & Hs);
    [unfold eventIndexAddress in H3; lia|done|].
  rewrite R in R'. injection R' as <-.
  eexists. split; [exact Hs|]. split; [reflexivity|].
  cbn [EEPROM]. destruct Hcase as [[Hp _]|(_ & W & _)]; [lia|].
  by apply writeLong_journal; [exact int_reach_index|].
Qed.

Lemma setup_writes_before_reading_switch_witness :
  exists st,
    setup true (device 512 255) = Done st
    /\ isReadOnly st = true
    /\ journal (EEPROM st)
       = journal (device 512 255)
         ++ writeLong_calls eventIndexAddress (to_int (-1)).
Proof.
  apply (setup_writes_before_reading_switch (device 512 255) (-1));
    [vm_compute; reflexivity | vm_compute; discriminate | reflexivity].
Defined.

(** On a device of fewer than eight bytes the first access of [setup], the
    read of the stored index on the device as it was found, passes to
    [EEPROM.read] one of the addresses 4 to 7 that is not in the device. *)
Theorem setup_index_read_outside_small_device (readOnlySwitch : bool)
        (e : EEPROMClass) :
  EEPROM_length e < 8 ->
  exists address,
    readLong e eventIndexAddress = OutOfRange address
    /\ setup readOnlySwitch e = OutOfRange address
    /\ eventIndexAddress <= address <= eventIndexAddress + 3
    /\ ~ (0 <= address < EEPROM_length e).
Proof.
  intros Hlen.
  destruct (readLong_leaves_device e eventIndexAddress) as (k & Hk & R & Hout).
  { change (to_int eventIndexAddress) with 4. lia. }
  assert (to_int (eventIndexAddress + k) = eventIndexAddress + k) as Hid
      by (apply to_int_id; unfold eventIndexAddress; unfold_ints; lia).
  rewrite Hid in *.
  exists (eventIndexAddress + k). split; [exact R|]. split; [|split; [lia|done]].
  rewrite setup_unfold. unfold initializeEventAddress.
  cbn [EEPROM set_memorySize power_on]. by rewrite R.
Qed.

Lemma setup_index_read_outside_small_device_witness :
  exists address,
    readLong (device 6 0) eventIndexAddress = OutOfRange address
    /\ setup false (device 6 0) = OutOfRange address
    /\ eventIndexAddress <= address <= eventIndexAddress + 3
    /\ ~ (0 <= address < EEPROM_length (device 6 0)).
Proof.
  apply (setup_index_read_outside_small_device false (device 6 0)). reflexivity.
Defined.

(** With the switch high [setup] goes on to dump the device, and the dump
    reads past the end of a device whose size is no multiple of 4: on ten
    bytes of 0xFF the index and the counter are restored, and the dump then
    passes address 10 to [EEPROM.read]. *)
Example setup_dump_reads_past_end :
  (exists st, setup false (device 10 255) = Done st)
  /\ printMemoryStatus (device 10 255) = Some (OutOfRange 10)
  /\ setup true (device 10 255) = OutOfRange 10.
Proof. split; [eexists|split]; vm_compute; reflexivity. Qed.

(** ** The modes *)

(** In read-only mode the loop does nothing at all: whatever the sensor
    reads, every pass prints READ ONLY MODE and the globals and the device,
    journal included, stay as they are. *)
Theorem read_only_is_frozen (st : Sketch) (pins : list bool) :
  isReadOnly st = true ->
  run st pins = (replicate (length pins) [READ_ONLY_MODE], Done st).
Proof.
  intros Hro. induction pins as [|pin pins IH]; [done|].
  assert (isReadOnly st || isMemoryFull st = true) as Hh by (by rewrite Hro).
  pose proof (loop_halted pin st Hh) as Hl. rewrite Hro in Hl.
  by rewrite (run_cons _ _ _ _ _ Hl), IH.
Qed.

Lemma read_only_is_frozen_witness :
  run (set_isReadOnly true (power_on (device 16 0))) [true; true; false]
  = (replicate (length [true; true; false]) [READ_ONLY_MODE],
     Done (set_isReadOnly true (power_on (device 16 0)))).
Proof.
  apply (read_only_is_frozen (set_isReadOnly true (power_on (device 16 0)))
           [true; true; false]).
  reflexivity.
Defined.

Lemma cooldown_mode (st : Sketch) :
  isReadOnly (cooldown st) = isReadOnly st
  /\ memorySize (cooldown st) = memorySize st.
Proof.
  unfold cooldown. destruct (hasEvent st); [|done].
  cbn zeta. by destruct (eventsDelay <? _).
Qed.

(** No pass of [loop] changes the mode switch or the size it compares with. *)
Lemma loop_mode (pin : bool) (st st' : Sketch) (out : list SerialLine) :
  loop pin st = Done (out, st') ->
  isReadOnly st' = isReadOnly st /\ memorySize st' = memorySize st.
Proof.
  intros H.
  apply loop_inv in H
    as [(_ & -> & _)|[(_ & _ & _ & Ht)|(_ & _ & _ & _ & e1 & e2 & out2 & _ & _ & Ht & _)]].
  - done.
  - apply handleTimer_frame in Ht as (_ & _ & _ & -> & -> & _).
    destruct (cooldown_mode st) as [-> ->]. done.
  - apply handleTimer_frame in Ht as (_ & _ & _ & -> & -> & _).
    destruct (cooldown_mode (recorded e2 st)) as [-> ->]. done.
Qed.

Lemma run_mode (pins : list bool) (st st' : Sketch) (outs : list (list SerialLine)) :
  run st pins = (outs, Done st') ->
  isReadOnly st' = isReadOnly st /\ memorySize st' = memorySize st.
Proof.
  revert st outs. induction pins as [|pin pins IH]; intros st outs Hr.
  - by injection Hr as <- <-.
  - apply run_Done_inv in Hr as (out & st1 & outs1 & Hl & Hr & ->).
    destruct (loop_mode _ _ _ _ Hl) as [<- <-]. by eapply IH.
Qed.

(** The log only grows.  Over any run from a well-formed state in which
    every access stayed inside the device, the mode switch and [memorySize]
    stay as they are, [eventAddress] never moves back, and every record slot
    written before the run, from 8 up to [eventAddress], still reads the
    same. *)
Theorem log_is_append_only (st st' : Sketch) (pins : list bool)
        (outs : list (list SerialLine)) :
  wf st -> run st pins = (outs, Done st') ->
  isReadOnly st' = isReadOnly st
  /\ memorySize st' = memorySize st
  /\ eventAddress st <= eventAddress st'
  /\ (forall a, eventIndexAddress + eventAddressStep <= a -> a <= eventAddress st ->
                readLong (EEPROM st') a = readLong (EEPROM st) a).
Proof.
  intros Hwf Hr.
  destruct (run_mode _ _ _ _ Hr) as [Hro Hm].
  destruct (run_log _ _ _ _ Hwf Hr) as (Hwf' & Hea & Hfr & Hsl & Had).
  split; [done|]. split; [done|].
  assert (0 <= Z.of_nat (length (events (concat outs))) * eventAddressStep)
    as Hk by (unfold eventAddressStep; lia).
  split; [lia|exact Hfr].
Qed.

Lemma log_is_append_only_witness :
  exists st' outs,
    run (set_secondsCounter 90
           (set_eventAddress 12
              (set_memorySize 32 (power_on (device_with 32 90 12)))))
        [true; false; false]
    = (outs, Done st')
    /\ events (concat outs) = [(90, 16)]
    /\ isReadOnly st' = false
    /\ memorySize st' = 32
    /\ 12 <= eventAddress st'
    /\ (forall a, eventIndexAddress + eventAddressStep <= a -> a <= 12 ->
                  readLong (EEPROM st') a = readLong (device_with 32 90 12) a).
Proof.
  eexists _, _. split; [vm_compute; reflexivity|]. split; [reflexivity|].
  eapply (log_is_append_only
            (set_secondsCounter 90
               (set_eventAddress 12
                  (set_memorySize 32 (power_on (device_with 32 90 12)))))
            _ [true; false; false]);
    [wf_concrete | vm_compute; reflexivity].
Defined.

(** ** Power loss and restart *)

(** If power is lost inside an append, after the seconds counter went into
    the new slot and before the index is written, the device still holds the
    old index, the old counter and every earlier record: only the event being
    recorded is lost. *)
Theorem interrupted_append_keeps_log (st : Sketch) (e1 : EEPROMClass) :
  wf st ->
  writeLong (EEPROM st) (eventAddress st + eventAddressStep) (secondsCounter st)
  = Done e1 ->
  readLong e1 eventIndexAddress = readLong (EEPROM st) eventIndexAddress
  /\ readLong e1 secondsCounterAddress = readLong (EEPROM st) secondsCounterAddress
  /\ forall a, eventIndexAddress + eventAddressStep <= a -> a <= eventAddress st ->
               readLong e1 a = readLong (EEPROM st) a.
Proof.
  intros [_ _ Ha _ _] W.
  assert (forall a, 0 <= a <= eventAddress st + eventAddressStep -> int_reach a)
    as Hr.
  { intros a Hle. apply int_reach_between. revert Ha Hle.
    unfold eventAddressStep. unfold_ints. lia. }
  unfold eventIndexAddress, eventAddressStep, secondsCounterAddress in *.
  split; [|split]; intros;
    (eapply readLong_writeLong_other; [| |exact W|]; [apply Hr|apply Hr|]; lia).
Qed.

Lemma interrupted_append_keeps_log_witness :
  readLong (put_byte (put_byte (put_byte (put_byte (device_with 32 300 8)
              12 0) 13 0) 14 1) 15 44) eventIndexAddress
  = readLong (device_with 32 300 8) eventIndexAddress
  /\ readLong (put_byte (put_byte (put_byte (put_byte (device_with 32 300 8)
                 12 0) 13 0) 14 1) 15 44) secondsCounterAddress
     = readLong (device_with 32 300 8) secondsCounterAddress
  /\ forall a, eventIndexAddress + eventAddressStep <= a -> a <= 8 ->
        readLong (put_byte (put_byte (put_byte (put_byte (device_with 32 300 8)
                    12 0) 13 0) 14 1) 15 44) a
        = readLong (device_with 32 300 8) a.
Proof.
  apply (interrupted_append_keeps_log
           (set_secondsCounter 300
              (set_memorySize 32 (power_on (device_with 32 300 8))))
           _);
    [wf_concrete | vm_compute; reflexivity].
Defined.

Lemma persisted_ext (st st' : Sketch) :
  EEPROM st' = EEPROM st -> eventAddress st' = eventAddress st ->
  secondsCounter st' = secondsCounter st ->
  (index_persisted st -> index_persisted st')
  /\ (counter_persisted st -> counter_persisted st').
Proof.
  unfold index_persisted, counter_persisted. intros -> -> ->. done.
Qed.

Lemma handleTimer_persisted (st st' : Sketch) (out : list SerialLine) :
  index_persisted st -> counter_persisted st ->
  handleTimer st = Done (out, st') ->
  index_persisted st' /\ counter_persisted st'.
Proof.
  intros Hi Hc H.
  apply handleTimer_inv in H as [(_ & _ & ->)|(_ & _ & e & W & ->)].
  - destruct (persisted_ext st (set_timer (int_add (timer st) 1) st)
                eq_refl eq_refl eq_refl) as [H1 H2]. auto.
  - split.
    + destruct Hi as (v & R & Hv). exists v. split; [|exact Hv].
      cbn [EEPROM set_EEPROM]. rewrite <- R.
      eapply readLong_writeLong_other;
        [exact int_reach_counter|exact int_reach_index|exact W|].
      unfold eventIndexAddress, secondsCounterAddress. lia.
    + exists (long_add (secondsCounter st) 1). split; [|by right].
      cbn [EEPROM set_EEPROM].
      eapply readLong_writeLong; [apply to_long_range|exact W].
Qed.

Lemma cooldown_persisted (st : Sketch) :
  (index_persisted st -> index_persisted (cooldown st))
  /\ (counter_persisted st -> counter_persisted (cooldown st)).
Proof.
  destruct (cooldown_frame st) as (Ha & He & Hs). by apply persisted_ext.
Qed.

Lemma loop_persisted (pin : bool) (st st' : Sketch) (out : list SerialLine) :
  wf st -> index_persisted st -> counter_persisted st ->
  loop pin st = Done (out, st') ->
  index_persisted st' /\ counter_persisted st'.
Proof.
  intros Hwf Hi Hc H.
  apply loop_inv in H
    as [(_ & -> & _)|[(_ & _ & _ & Ht)|(_ & _ & _ & _ & e1 & e2 & out2 & W1 & W2 & Ht & _)]].
  - done.
  - eapply handleTimer_persisted; [| |exact Ht]; by apply cooldown_persisted.
  - pose proof Hwf as [Hs _ Ha _ _].
    pose proof (writeLong_inv _ _ _ _ (int_reach_int_add _ _) W1) as [W0 W3].
    assert (int_add (eventAddress st) eventAddressStep
            = eventAddress st + eventAddressStep) as Hp.
    { destruct (int_add_step_cases (eventAddress st)) as [Hp|Hp];
        [unfold eventIndexAddress in Ha; lia | done | lia]. }
    eapply handleTimer_persisted; [| |exact Ht]; apply cooldown_persisted.
    + exists (int_add (eventAddress st) eventAddressStep).
      unfold recorded. cbn [EEPROM eventAddress set_EEPROM set_eventAddress].
      pose proof (to_int_range (eventAddress st + eventAddressStep)) as Hr.
      fold (int_add (eventAddress st) eventAddressStep) in Hr.
      split.
      * eapply readLong_writeLong; [|exact W2].
        revert Hr. unfold_ints. lia.
      * left. rewrite to_int_id by done. split; [|done].
        rewrite Hp. unfold eventIndexAddress, eventAddressStep in *. lia.
    + destruct Hc as (c & R & Hc). exists c. split; [|exact Hc].
      unfold recorded. cbn [EEPROM set_EEPROM]. rewrite <- R.
      rewrite (readLong_writeLong_other _ _ _ _ _
                 int_reach_index int_reach_counter W2)
        by (unfold eventIndexAddress, secondsCounterAddress; lia).
      eapply readLong_writeLong_other;
        [apply int_reach_int_add|exact int_reach_counter|exact W1|].
      rewrite Hp.
      unfold eventIndexAddress, eventAddressStep, secondsCounterAddress in *.
      lia.
Qed.

Lemma run_persisted (pins : list bool) (st st' : Sketch)
      (outs : list (list SerialLine)) :
  wf st -> index_persisted st -> counter_persisted st ->
  run st pins = (outs, Done st') ->
  index_persisted st' /\ counter_persisted st'.
Proof.
  revert st outs. induction pins as [|pin pins IH]; intros st outs Hwf Hi Hc Hr.
  - by injection Hr as <- <-.
  - apply run_Done_inv in Hr as (out & st1 & outs1 & Hl & Hr & ->).
    destruct (loop_log _ _ _ _ Hwf Hl) as (Hwf1 & _).
    destruct (loop_persisted _ _ _ _ Hwf Hi Hc Hl) as [Hi1 Hc1].
    by eapply IH.
Qed.

Lemma setup_recovers (readOnlySwitch : bool) (st : Sketch) :
  index_persisted st -> counter_persisted st ->
  (readOnlySwitch = true -> EEPROM_length (EEPROM st) mod 4 = 0) ->
  exists st2,
    setup readOnlySwitch (EEPROM st) = Done st2
    /\ eventAddress st2 = eventAddress st
    /\ (0 <= secondsCounter st -> secondsCounter st2 = secondsCounter st).
Proof.
  intros (v & R & Hv) (c & Rc & Hc) Hal.
  destruct (readLong_inv _ _ _ int_reach_index R) as (_ & H3 & _).
  destruct (setup_spec readOnlySwitch (EEPROM st))
    as (v' & c' & e1 & R' & Rc' & Hl & Hcase & Hs);
    [unfold eventIndexAddress in H3; lia|done|].
  rewrite R in R'. injection R' as <-.
  assert (c' = c) as ->.
  { destruct Hcase as [[_ ->]|(_ & W & _)]; [congruence|].
    rewrite (readLong_writeLong_other _ _ _ _ _
               int_reach_index int_reach_counter W) in Rc'
      by (unfold eventIndexAddress, secondsCounterAddress; lia).
    congruence. }
  eexists. split; [exact Hs|]. cbn [eventAddress secondsCounter]. split.
  - destruct (Z.leb_spec (to_int v) 0); lia.
  - intros Hpos. destruct (Z.leb_spec c 0); lia.
Qed.

Lemma setup_wf (readOnlySwitch : bool) (e : EEPROMClass) (st : Sketch) :
  EEPROM_length e <= INT_MAX -> setup readOnlySwitch e = Done st ->
  eventIndexAddress <= eventAddress st ->
  wf st /\ index_persisted st /\ counter_persisted st.
Proof.
  intros Hmax Hs Hea.
  assert (8 <= EEPROM_length e) as Hlen.
  { destruct (Z.lt_ge_cases (EEPROM_length e) 8) as [Hsmall|]; [|lia].
    destruct (readLong_leaves_device e eventIndexAddress)
      as (k & _ & R & _); [change (to_int eventIndexAddress) with 4; lia|].
    rewrite setup_unfold in Hs. unfold initializeEventAddress in Hs.
    cbn [EEPROM set_memorySize power_on] in Hs. by rewrite R in Hs. }
  destruct (setup_cases readOnlySwitch e Hlen)
    as (v & c & e1 & R & Rc & Hl & Hcase & Hs').
  rewrite Hs in Hs'.
  destruct (readOnlySwitch && _);
    [by destruct (printMemoryStatus e1) as [[?|?]|]|].
  injection Hs' as ->.
  cbn [eventAddress] in Hea.
  pose proof (to_int_range v) as Hr. unfold int_range in Hr.
  pose proof (readLong_range _ _ _ Rc) as Hcr.
  assert (to_int (EEPROM_length e) = EEPROM_length e) as Hm.
  { apply to_int_id. destruct (EEPROM_length_bounds e) as [Hb _].
    revert Hmax Hb. unfold_ints. lia. }
  split; [|split].
  - constructor; cbn [secondsCounter timer eventAddress memorySize EEPROM].
    + destruct (Z.leb_spec c 0); [|done]. unfold_ints. lia.
    + rewrite counterIncreaseRatio_eq. lia.
    + split; [done|]. destruct (Z.leb_spec (to_int v) 0);
        [unfold eventIndexAddress; unfold_ints; lia|lia].
    + congruence.
    + by rewrite Hm.
  - unfold index_persisted. cbn [EEPROM eventAddress].
    destruct Hcase as [[Hv ->]|(Hv & W & R1)].
    + exists v. split; [done|]. left.
      destruct (Z.leb_spec (to_int v) 0); [lia|done].
    + exists (to_int v). split; [done|]. right. rewrite to_int_idem.
      destruct (Z.leb_spec (to_int v) 0); [done|lia].
  - unfold counter_persisted. cbn [EEPROM secondsCounter].
    exists c. split; [done|].
    destruct (Z.leb_spec c 0); [left; done|right; done].
Qed.

(** A restart resumes the log.  Start the sketch on any device not longer
    than [INT_MAX] bytes whose index is not one of the stray values 1, 2, 3,
    let the loop run over any sensor readings with every access inside the
    device, and reset the board at the end of any pass, with the read-only
    switch high only on a device whose size is a multiple of 4 (so that the
    dump reads inside it): the second [setup] again completes, finds the
    [eventAddress] the first run ended with, and finds its [secondsCounter]
    whenever that has not wrapped to a negative value. *)
Theorem power_cycle_resumes (e : EEPROMClass) (switch1 switch2 : bool)
        (st0 st1 : Sketch) (pins : list bool) (outs : list (list SerialLine)) :
  EEPROM_length e <= INT_MAX ->
  (switch2 = true -> EEPROM_length e mod 4 = 0) ->
  setup switch1 e = Done st0 ->
  eventIndexAddress <= eventAddress st0 ->
  run st0 pins = (outs, Done st1) ->
  exists st2,
    setup switch2 (EEPROM st1) = Done st2
    /\ eventAddress st2 = eventAddress st1
    /\ (0 <= secondsCounter st1 -> secondsCounter st2 = secondsCounter st1).
Proof.
  intros Hmax Hal Hs Hea Hr.
  destruct (setup_wf _ _ _ Hmax Hs Hea) as (Hwf & Hi & Hc).
  destruct (run_persisted _ _ _ _ Hwf Hi Hc Hr) as [Hi1 Hc1].
  destruct (run_log _ _ _ _ Hwf Hr) as (Hwf1 & _).
  destruct (run_mode _ _ _ _ Hr) as [_ Hm].
  apply setup_recovers; [done..|].
  intros Hsw. destruct Hwf as [_ _ _ Hm0 _], Hwf1 as [_ _ _ Hm1 _].
  rewrite <- Hm1, Hm, Hm0.
  assert (EEPROM_length (EEPROM st0) = EEPROM_length e) as ->; [|auto].
  destruct (setup_cases switch1 e) as (v & c & e1 & _ & _ & Hl & _ & Hs').
  { destruct (Z.lt_ge_cases (EEPROM_length e) 8) as [Hsmall|]; [|lia].
    destruct (readLong_leaves_device e eventIndexAddress)
      as (k & _ & R & _); [change (to_int eventIndexAddress) with 4; lia|].
    rewrite setup_unfold in Hs. unfold initializeEventAddress in Hs.
    cbn [EEPROM set_memorySize power_on] in Hs. by rewrite R in Hs. }
  rewrite Hs in Hs'.
  destruct (switch1 && _);
    [by destruct (printMemoryStatus e1) as [[?|?]|]|].
  by injection Hs' as ->.
Qed.

Lemma power_cycle_resumes_witness :
  exists st1 st2,
    setup false (device 64 255) = Done (set_eventAddress 4
          (set_EEPROM (put_byte (put_byte (put_byte (put_byte (device 64 255)
                         4 255) 5 255) 6 255) 7 255)
             (set_memorySize 64 (power_on (device 64 255)))))
    /\ run (set_eventAddress 4
          (set_EEPROM (put_byte (put_byte (put_byte (put_byte (device 64 255)
                         4 255) 5 255) 6 255) 7 255)
             (set_memorySize 64 (power_on (device 64 255))))) [true; false]
       = ((run (set_eventAddress 4
          (set_EEPROM (put_byte (put_byte (put_byte (put_byte (device 64 255)
                         4 255) 5 255) 6 255) 7 255)
             (set_memorySize 64 (power_on (device 64 255))))) [true; false]).1, Done st1)
    /\ setup true (EEPROM st1) = Done st2
    /\ eventAddress st2 = eventAddress st1
    /\ (0 <= secondsCounter st1 -> secondsCounter st2 = secondsCounter st1).
Proof.
  assert (setup false (device 64 255) = Done (set_eventAddress 4
          (set_EEPROM (put_byte (put_byte (put_byte (put_byte (device 64 255)
                         4 255) 5 255) 6 255) 7 255)
             (set_memorySize 64 (power_on (device 64 255)))))) as Hs
      by (vm_compute; reflexivity).
  assert (exists st1,
            run (set_eventAddress 4
          (set_EEPROM (put_byte (put_byte (put_byte (put_byte (device 64 255)
                         4 255) 5 255) 6 255) 7 255)
             (set_memorySize 64 (power_on (device 64 255))))) [true; false]
            = ((run (set_eventAddress 4
          (set_EEPROM (put_byte (put_byte (put_byte (put_byte (device 64 255)
                         4 255) 5 255) 6 255) 7 255)
             (set_memorySize 64 (power_on (device 64 255))))) [true; false]).1, Done st1)) as [st1 Hr]
      by (eexists; vm_compute; reflexivity).
  destruct (power_cycle_resumes (device 64 255) false true _ _ _ _
              ltac:(vm_compute; discriminate) ltac:(intros _; reflexivity) Hs
              ltac:(vm_compute; discriminate) Hr) as (st2 & H2 & Ha & Hc).
  exists st1, st2. done.
Defined.

(** ** The cooldown ends *)

(** The debounce re-arms.  While the sketch is in normal mode with an active
    event and [eventTime = t], the next [eventsDelay + 1 - t] completed passes
    record nothing, whatever the sensor reads, and the last of them clears
    [hasEvent]: a sensor held high is heard again 1201 passes after an
    event. *)
Theorem cooldown_rearms (st st' : Sketch) (pins : list bool)
        (outs : list (list SerialLine)) :
  hasEvent st = true -> 0 <= eventTime st <= eventsDelay ->
  isReadOnly st = false -> isMemoryFull st = false ->
  Z.of_nat (length pins) = eventsDelay + 1 - eventTime st ->
  run st pins = (outs, Done st') ->
  hasEvent st' = false
  /\ eventTime st' = eventsDelay + 1
  /\ eventAddress st' = eventAddress st
  /\ pulses outs = 0%nat.
Proof.
  intros He Ht Hro Hf Hlen Hr. split; [|split; [|split]].
  4: { pose proof (cooldown_is_silent pins st He Ht ltac:(lia)) as Hs.
       by rewrite Hr in Hs. }
  all: revert st outs He Ht Hro Hf Hlen Hr;
    induction pins as [|pin pins IH]; intros st outs He Ht Hro Hf Hlen Hr;
    [cbn [length] in Hlen; lia|];
    rewrite length_cons in Hlen;
    apply run_Done_inv in Hr as (out & st1 & outs1 & Hl & Hr & ->);
    pose proof (loop_mode _ _ _ _ Hl) as [Hro1 Hm1];
    apply loop_inv in Hl
      as [(Hh & _)|[(_ & _ & _ & Hl)|(_ & _ & Hne & _)]];
    [rewrite Hro, Hf in Hh; discriminate | | congruence];
    apply handleTimer_frame in Hl as (He' & Ht' & Hea' & _ & _ & _);
    destruct (cooldown_active st He Ht) as [Ht1 He1];
    destruct (cooldown_frame st) as (Ca & _);
    assert (isMemoryFull st1 = false) as Hf1
        by (revert Hf; unfold isMemoryFull; congruence);
    revert He1; destruct (Z.ltb_spec eventsDelay (eventTime st + 1)) as [Hend|Hgo];
    intros He1; simpl in He1.
  - destruct pins; [|rewrite length_cons in Hlen; lia].
    injection Hr as _ <-. congruence.
  - apply (IH st1 outs1); [congruence|lia|congruence|done|lia|done].
  - destruct pins; [|rewrite length_cons in Hlen; lia].
    injection Hr as _ <-. lia.
  - apply (IH st1 outs1); [congruence|lia|congruence|done|lia|done].
  - destruct pins; [|rewrite length_cons in Hlen; lia].
    injection Hr as _ <-. congruence.
  - rewrite (IH st1 outs1); [congruence|congruence|lia|congruence|done|lia|done].
Qed.

Lemma cooldown_rearms_witness :
  exists st' outs,
    run (set_eventTime 1199 (set_hasEvent true
           (set_eventAddress 8 (set_memorySize 32 (power_on (device 32 0))))))
        [true; true]
    = (outs, Done st')
    /\ hasEvent st' = false
    /\ eventTime st' = eventsDelay + 1
    /\ eventAddress st' = 8
    /\ pulses outs = 0%nat.
Proof.
  eexists _, _. split; [vm_compute; reflexivity|].
  apply (cooldown_rearms
           (set_eventTime 1199 (set_hasEvent true
              (set_eventAddress 8 (set_memorySize 32 (power_on (device 32 0))))))
           _ [true; true] _);
    [reflexivity | vm_compute; split; discriminate | reflexivity | reflexivity
    | reflexivity | vm_compute; reflexivity].
Defined.

(** ** Erasing and dumping the device *)

Lemma to_uint_id (z : Z) : 0 <= z <= INT_MAX -> to_uint z = z.
Proof. unfold to_uint. unfold_ints. intros H. apply Z.mod_small. lia. Qed.

Lemma clearMemory_loop_spec (n fuel : nat) (k : Z) (e : EEPROMClass) :
  (n < fuel)%nat -> 0 <= k -> k + Z.of_nat n = EEPROM_length e ->
  EEPROM_length e <= INT_MAX ->
  exists e',
    clearMemory_loop fuel k e = Some (Done e')
    /\ cells e' = take (Z.to_nat k) (cells e) ++ replicate n 0
    /\ journal e' = journal e ++ zero_calls k n.
Proof.
  revert fuel k e. induction n as [|n IH]; intros fuel k e Hf Hk Hlen Hmax;
    (destruct fuel as [|fuel]; [lia|]); cbn [clearMemory_loop];
    rewrite to_uint_id by lia.
  - destruct (Z.ltb_spec k (EEPROM_length e)); [lia|]. exists e. split; [done|].
    cbn [replicate zero_calls]. rewrite !app_nil_r. split; [|done].
    rewrite take_ge; [done|]. pose proof (EEPROM_length_cells_inv e Hmax). lia.
  - destruct (Z.ltb_spec k (EEPROM_length e)) as [Hlt|]; [|lia].
    rewrite EEPROM_write_Done by lia.
    change (to_uint8 0) with 0.
    assert (int_add k 1 = k + 1) as ->.
    { unfold int_add. apply to_int_id. revert Hmax. unfold_ints. lia. }
    destruct (IH fuel (k + 1) (put_byte e k 0)) as (e' & Hl & Hc & Hj);
      [lia | lia | rewrite EEPROM_length_put_byte; lia
      | by rewrite EEPROM_length_put_byte |].
    exists e'. split; [exact Hl|]. split.
    + rewrite Hc. unfold put_byte. cbn [cells].
      replace (Z.to_nat (k + 1)) with (S (Z.to_nat k)) by lia.
      pose proof (EEPROM_length_cells_inv e Hmax) as Hcells.
      rewrite (take_S_r _ _ 0) by (apply list_lookup_insert_eq; lia).
      rewrite take_insert_ge by lia.
      rewrite <- app_assoc. reflexivity.
    + rewrite Hj. unfold put_byte. cbn [journal zero_calls].
      rewrite <- app_assoc. reflexivity.
Qed.

(** [clearMemory] on a device not longer than [INT_MAX] bytes terminates by
    its own loop condition, stays inside the device, stores 0 in every cell
    in ascending order, one call of [EEPROM.write] per cell; a [setup] on the
    erased device, if that has at least eight bytes and, with the read-only
    switch high, a size that is a multiple of 4 (so that the dump reads inside
    it), then starts with an empty log and a zero counter. *)
Theorem clearMemory_erases_device (e : EEPROMClass) :
  EEPROM_length e <= INT_MAX ->
  exists e',
    clearMemory e = Some (Done e')
    /\ cells e' = replicate (length (cells e)) 0
    /\ journal e' = journal e ++ zero_calls 0 (length (cells e))
    /\ (8 <= EEPROM_length e ->
        forall readOnlySwitch,
          (readOnlySwitch = true -> EEPROM_length e mod 4 = 0) ->
          exists st,
            setup readOnlySwitch e' = Done st
            /\ eventAddress st = eventIndexAddress /\ secondsCounter st = 0).
Proof.
  intros Hmax. pose proof (EEPROM_length_cells_inv e Hmax) as Hcells.
  destruct (clearMemory_loop_spec (length (cells e)) (S (length (cells e))) 0 e)
    as (e' & Hl & Hc & Hj); [lia | lia | lia | done |].
  exists e'. change (Z.to_nat 0) with 0%nat in Hc. rewrite take_0 in Hc.
  cbn [app] in Hc.
  split; [exact Hl|]. split; [exact Hc|]. split; [exact Hj|].
  intros Hlen ro Hal.
  assert (blank e') as Hb.
  { intros i b L. rewrite Hc in L. by apply lookup_replicate_1 in L as [-> _]. }
  assert (EEPROM_length e' = EEPROM_length e) as Hlen'
      by (unfold EEPROM_length; rewrite Hc, length_replicate; done).
  destruct (setup_spec ro e') as (v & c & e1 & R & Rc & Hl1 & Hcase & Hs);
    [lia|by rewrite Hlen'|].
  rewrite readLong_blank in R
    by (try done; unfold eventIndexAddress; lia).
  injection R as <-. change (to_int 0) with 0 in *.
  destruct Hcase as [[Hpos _]|(_ & W & _)]; [lia|].
  rewrite (readLong_writeLong_other _ _ _ _ _
             int_reach_index int_reach_counter W) in Rc
    by (unfold eventIndexAddress, secondsCounterAddress; lia).
  rewrite readLong_blank in Rc
    by (try done; unfold secondsCounterAddress; lia).
  injection Rc as <-.
  eexists. split; [exact Hs|]. done.
Qed.

Lemma clearMemory_erases_device_witness :
  exists e',
    clearMemory (device_with 16 77 12) = Some (Done e')
    /\ cells e' = replicate (length (cells (device_with 16 77 12))) 0
    /\ journal e'
       = journal (device_with 16 77 12)
         ++ zero_calls 0 (length (cells (device_with 16 77 12)))
    /\ (8 <= EEPROM_length (device_with 16 77 12) ->
        forall readOnlySwitch,
          (readOnlySwitch = true
           -> EEPROM_length (device_with 16 77 12) mod 4 = 0) ->
          exists st,
            setup readOnlySwitch e' = Done st
            /\ eventAddress st = eventIndexAddress /\ secondsCounter st = 0).
Proof.
  apply (clearMemory_erases_device (device_with 16 77 12)).
  vm_compute. discriminate.
Defined.

(** On a device whose size is a multiple of 4 (and at most [INT_MAX])
    [printMemoryStatus] terminates by its own loop condition and never reads
    outside the device; each slot line shows a 4-aligned address in the
    device with the long [readLong] finds there, and the addresses shown are
    0, 4, 8, ... without a gap. *)
Theorem printMemoryStatus_lists_aligned_slots (e : EEPROMClass) :
  EEPROM_length e mod 4 = 0 -> EEPROM_length e <= INT_MAX ->
  exists lines,
    printMemoryStatus e = Some (Done lines)
    /\ (forall a v, Slot a v ∈ lines ->
          0 <= a /\ a mod 4 = 0 /\ a + 3 < EEPROM_length e
          /\ readLong e a = Done v)
    /\ dump_addresses lines = slots 0 (length (dump_addresses lines)).
Proof.
  intros Hal Hmax. unfold printMemoryStatus.
  destruct (EEPROM_length_bounds e) as [_ Hl].
  apply printMemoryStatus_loop_spec; try done; lia.
Qed.

Lemma printMemoryStatus_lists_aligned_slots_witness :
  exists lines,
    printMemoryStatus (device_with 16 77 12) = Some (Done lines)
    /\ (forall a v, Slot a v ∈ lines ->
          0 <= a /\ a mod 4 = 0 /\ a + 3 < EEPROM_length (device_with 16 77 12)
          /\ readLong (device_with 16 77 12) a = Done v)
    /\ dump_addresses lines = slots 0 (length (dump_addresses lines)).
Proof.
  apply (printMemoryStatus_lists_aligned_slots (device_with 16 77 12));
    [reflexivity | vm_compute; discriminate].
Defined.

Lemma printMemoryStatus_loop_blank (fuel : nat) (e : EEPROMClass) (i zeroCount : Z) :
  blank e -> 0 <= i -> i + 3 < EEPROM_length e ->
  printMemoryStatus_loop (S fuel) e i zeroCount
  = if 4 <? int_add zeroCount 1 then Some (Done [Slot i 0; Ellipsis])
    else match printMemoryStatus_loop fuel e (long_add i 4) (int_add zeroCount 1) with
         | Some (Done lines) => Some (Done (Slot i 0 :: lines))
         | other => other
         end.
Proof.
  intros Hb H0 H3. cbn [printMemoryStatus_loop].
  destruct (Z.ltb_spec i (EEPROM_length e)); [|lia].
  by rewrite readLong_blank.
Qed.

(** The dump of a blank device breaks off.  When every cell holds 0 and the
    device has at least 20 bytes, whatever its size, [printMemoryStatus]
    shows the five slots 0 to 16 and then the dots; the rest of the device is
    not read. *)
Theorem printMemoryStatus_blank_device (e : EEPROMClass) :
  blank e -> 20 <= EEPROM_length e ->
  printMemoryStatus e
  = Some (Done [Slot 0 0; Slot 4 0; Slot 8 0; Slot 12 0; Slot 16 0; Ellipsis]).
Proof.
  intros Hb Hlen. unfold printMemoryStatus.
  destruct (EEPROM_length_bounds e) as [_ Hl].
  destruct (length (cells e)) as [|[|[|[|[|m]]]]] eqn:E; try lia.
  clear E Hl.
  rewrite (printMemoryStatus_loop_blank _ e 0 0) by (try done; lia).
  change (int_add 0 1) with 1. change (long_add 0 4) with 4.
  change (4 <? 1) with false. cbv iota.
  rewrite (printMemoryStatus_loop_blank _ e 4 1) by (try done; lia).
  change (int_add 1 1) with 2. change (long_add 4 4) with 8.
  change (4 <? 2) with false. cbv iota.
  rewrite (printMemoryStatus_loop_blank _ e 8 2) by (try done; lia).
  change (int_add 2 1) with 3. change (long_add 8 4) with 12.
  change (4 <? 3) with false. cbv iota.
  rewrite (printMemoryStatus_loop_blank _ e 12 3) by (try done; lia).
  change (int_add 3 1) with 4. change (long_add 12 4) with 16.
  change (4 <? 4) with false. cbv iota.
  rewrite (printMemoryStatus_loop_blank _ e 16 4) by (try done; lia).
  change (int_add 4 1) with 5. change (4 <? 5) with true. cbv iota.
  reflexivity.
Qed.

Lemma printMemoryStatus_blank_device_witness :
  printMemoryStatus (device 30 0)
  = Some (Done [Slot 0 0; Slot 4 0; Slot 8 0; Slot 12 0; Slot 16 0; Ellipsis]).
Proof.
  apply (printMemoryStatus_blank_device (device 30 0)).
  - intros i b L. by apply lookup_replicate_1 in L as [-> _].
  - vm_compute. discriminate.
Defined.

(** ** Witnesses for two statements above *)

Lemma loop_pulse_violates_witness :
  exists address,
    loop true (set_eventAddress 28 (set_memorySize 32 (power_on (device 32 0))))
    = OutOfRange address
    /\ ~ (0 <= address
          < EEPROM_length
              (EEPROM (set_eventAddress 28
                         (set_memorySize 32 (power_on (device 32 0)))))).
Proof.
  apply (loop_pulse_violates
           (set_eventAddress 28 (set_memorySize 32 (power_on (device 32 0)))));
    [wf_concrete | reflexivity | reflexivity | reflexivity
    | vm_compute; discriminate | vm_compute; discriminate].
Defined.

Lemma initializeSecondsCounter_writes_back_witness :
  exists st',
    Digispark.initializeSecondsCounter (power_on (device 16 0)) = Done st'
    /\ secondsCounter st' = 0
    /\ journal (EEPROM st')
       = journal (EEPROM (power_on (device 16 0)))
         ++ writeLong_calls secondsCounterAddress 0
    /\ readLong (EEPROM st') secondsCounterAddress = Done 0.
Proof.
  apply (initializeSecondsCounter_writes_back (power_on (device 16 0)) 0);
    [vm_compute; reflexivity | vm_compute; discriminate].
Defined.

(** ** The unsigned counter of the Digispark variant *)

Lemma to_ulong_to_long (x : Z) :
  0 <= x < 2 ^ long_bits -> to_ulong (to_long x) = x.
Proof. unfold_ints. intros H. Z.div_mod_to_equations. lia. Qed.

Lemma to_ulong_range (x : Z) : 0 <= to_ulong x < 2 ^ long_bits.
Proof. unfold to_ulong. apply Z.mod_pos_bound. unfold long_bits. lia. Qed.

(** In the variant a stored counter other than 0 is kept, also when its top
    bit is set: the bytes that read as the negative long [v] (an erased
    device reads -1) start the [unsigned long] counter at [v + 2 ^ 32], and
    nothing is written. *)
Theorem initializeSecondsCounter_keeps_nonzero (st : Sketch) (v : Z) :
  readLong (EEPROM st) secondsCounterAddress = Done v -> v <> 0 ->
  Digispark.initializeSecondsCounter st
  = Done (set_secondsCounter (to_ulong v) st)
  /\ 0 < to_ulong v
  /\ (v < 0 -> to_ulong v = v + 2 ^ long_bits).
Proof.
  intros R Hv. pose proof (readLong_range _ _ _ R) as Hr.
  assert (0 < to_ulong v /\ (v < 0 -> to_ulong v = v + 2 ^ long_bits)) as [Hp Hn].
  { revert Hr. unfold_ints. intros Hr. split.
    - Z.div_mod_to_equations. lia.
    - intros Hneg. Z.div_mod_to_equations. lia. }
  split; [|done].
  unfold Digispark.initializeSecondsCounter. rewrite R.
  cbn [mbind outcome_bind]. cbn [secondsCounter set_secondsCounter].
  destruct (Z.leb_spec (to_ulong v) 0); [lia|]. reflexivity.
Qed.

Lemma initializeSecondsCounter_keeps_nonzero_witness :
  Digispark.initializeSecondsCounter (power_on (device 16 255))
  = Done (set_secondsCounter (to_ulong (-1)) (power_on (device 16 255)))
  /\ 0 < to_ulong (-1)
  /\ (-1 < 0 -> to_ulong (-1) = -1 + 2 ^ long_bits).
Proof.
  apply (initializeSecondsCounter_keeps_nonzero (power_on (device 16 255)) (-1));
    [vm_compute; reflexivity | discriminate].
Defined.

(** The variant's counter survives a restart for every value.  On a device of
    at least four bytes [increaseSeconds] adds 1 modulo 2 ^ 32 and stores the
    counter at offset 0; [initializeSecondsCounter] then finds exactly that
    counter again, the wrap to 0 included. *)
Theorem increaseSeconds_survives_restart (st : Sketch) :
  4 <= EEPROM_length (EEPROM st) ->
  exists st1 st2,
    DigisparkTimer.increaseSeconds st = Done st1
    /\ secondsCounter st1 = (secondsCounter st + 1) mod 2 ^ long_bits
    /\ Digispark.initializeSecondsCounter st1 = Done st2
    /\ secondsCounter st2 = secondsCounter st1.
Proof.
  intros Hlen.
  pose proof (to_ulong_range (secondsCounter st + 1)) as Hr.
  set (c := to_ulong (secondsCounter st + 1)) in *.
  pose proof (writeLong_Done (EEPROM st) secondsCounterAddress (to_long c)) as W.
  unfold secondsCounterAddress in W at 1 2.
  specialize (W ltac:(lia) ltac:(lia)).
  pose proof (readLong_writeLong _ _ _ _ (to_long_range c) W) as R.
  pose proof (writeLong_Done _ secondsCounterAddress 0
                ltac:(unfold secondsCounterAddress; lia)
                ltac:(rewrite (writeLong_length _ _ _ _ W);
                      unfold secondsCounterAddress; lia)) as W0.
  assert (DigisparkTimer.increaseSeconds st
          = Done (set_EEPROM
                    (put_byte (put_byte (put_byte (put_byte (EEPROM st)
                       secondsCounterAddress (Z.land (Z.shiftr (to_long c) 24) 255))
                       (secondsCounterAddress + 1)
                       (Z.land (Z.shiftr (to_long c) 16) 255))
                       (secondsCounterAddress + 2)
                       (Z.land (Z.shiftr (to_long c) 8) 255))
                       (secondsCounterAddress + 3) (Z.land (to_long c) 255))
                    (set_secondsCounter c st))) as Hinc.
  { unfold DigisparkTimer.increaseSeconds. cbn zeta.
    cbn [EEPROM secondsCounter set_secondsCounter]. fold c.
    rewrite W. reflexivity. }
  eexists. destruct (Z.leb_spec c 0) as [Hz|Hz]; eexists;
    (split; [exact Hinc|]); (split; [reflexivity|]);
    unfold Digispark.initializeSecondsCounter;
    cbn [EEPROM set_EEPROM set_secondsCounter]; rewrite R;
    cbn [mbind outcome_bind]; cbn [secondsCounter set_secondsCounter];
    rewrite to_ulong_to_long by done;
    destruct (Z.leb_spec c 0); try lia.
  - cbn [EEPROM set_EEPROM set_secondsCounter]. rewrite W0.
    split; [reflexivity|]. cbn [secondsCounter set_secondsCounter set_EEPROM].
    lia.
  - split; reflexivity.
Qed.

Lemma increaseSeconds_survives_restart_witness :
  exists st1 st2,
    DigisparkTimer.increaseSeconds
      (set_secondsCounter 4294967295 (power_on (device 16 0))) = Done st1
    /\ secondsCounter st1
       = (secondsCounter (set_secondsCounter 4294967295 (power_on (device 16 0)))
          + 1) mod 2 ^ long_bits
    /\ Digispark.initializeSecondsCounter st1 = Done st2
    /\ secondsCounter st2 = secondsCounter st1.
Proof.
  apply (increaseSeconds_survives_restart
           (set_secondsCounter 4294967295 (power_on (device 16 0)))).
  vm_compute. discriminate.
Defined.

(** ** Passes that complete *)

(** With room for one more record every pass completes.  In a well-formed
    state on a device where the slot behind [eventAddress] lies inside, a pass
    of [loop] completes whatever the sensor reads and ends in a well-formed
    state on a device of the same size. *)
Theorem loop_completes_with_room (pin : bool) (st : Sketch) :
  wf st ->
  eventAddress st + eventAddressStep + 3 < EEPROM_length (EEPROM st) ->
  exists out st',
    loop pin st = Done (out, st') /\ wf st'
    /\ EEPROM_length (EEPROM st') = EEPROM_length (EEPROM st).
Proof.
  intros Hwf Hroom. pose proof Hwf as [Hs Ht Ha Hm Hi].
  assert (4 <= EEPROM_length (EEPROM st)) as Hlen
      by (unfold eventIndexAddress, eventAddressStep in *; lia).
  destruct (isReadOnly st || isMemoryFull st) eqn:Hh.
  { rewrite loop_halted by done. eauto. }
  apply orb_false_elim in Hh as [Hro Hf]. rewrite loop_normal by done.
  destruct (negb (hasEvent st) && pin) eqn:Hp.
  - apply andb_true_iff in Hp as [He ->]. apply negb_true_iff in He.
    rewrite handleSensor_event by done.
    rewrite (int_add_step st Hwf Hroom).
    unfold eventIndexAddress, eventAddressStep in *.
    rewrite writeLong_Done by lia. cbn [mbind outcome_bind].
    rewrite writeLong_Done by (rewrite ?EEPROM_length_put_byte; lia).
    cbn [mbind outcome_bind mret outcome_ret].
    match goal with
    | |- context [cooldown (recorded ?e2 st)] =>
        destruct (handleTimer_step (cooldown (recorded e2 st)))
          as (out2 & st' & H2 & Hwf' & Hl' & _)
    end.
    + apply wf_cooldown. unfold recorded.
      fold eventAddressStep. rewrite (int_add_step st Hwf Hroom).
      unfold eventAddressStep.
      constructor; cbn [secondsCounter timer eventAddress memorySize EEPROM
                        set_EEPROM set_eventAddress set_eventTime set_hasEvent];
        rewrite ?EEPROM_length_put_byte; try done.
      unfold eventIndexAddress. rewrite Hm in Hi. lia.
    + match goal with
      | |- context [cooldown (recorded ?e2 st)] =>
          destruct (cooldown_frame (recorded e2 st)) as (_ & -> & _)
      end.
      unfold recorded. cbn [EEPROM set_EEPROM].
      rewrite !EEPROM_length_put_byte. lia.
    + rewrite H2. cbn [mbind outcome_bind mret outcome_ret].
      eexists _, _. split; [reflexivity|]. split; [done|].
      rewrite Hl'.
      match goal with
      | |- context [cooldown (recorded ?e2 st)] =>
          destruct (cooldown_frame (recorded e2 st)) as (_ & -> & _)
      end.
      unfold recorded. cbn [EEPROM set_EEPROM].
      by rewrite !EEPROM_length_put_byte.
  - rewrite handleSensor_idle by done. cbn [mbind outcome_bind].
    destruct (cooldown_frame st) as (_ & Ce & _).
    destruct (handleTimer_step (cooldown st))
      as (out2 & st' & H2 & Hwf' & Hl' & _);
      [by apply wf_cooldown | by rewrite Ce |].
    rewrite H2. cbn [mbind outcome_bind mret outcome_ret].
    eexists _, _. split; [reflexivity|]. split; [done|]. by rewrite Hl', Ce.
Qed.

Lemma loop_completes_with_room_witness :
  exists out st',
    loop true (set_eventAddress 4 (set_memorySize 32 (power_on (device 32 0))))
    = Done (out, st')
    /\ wf st'
    /\ EEPROM_length (EEPROM st')
       = EEPROM_length
           (EEPROM (set_eventAddress 4 (set_memorySize 32 (power_on (device 32 0))))).
Proof.
  apply (loop_completes_with_room true
           (set_eventAddress 4 (set_memorySize 32 (power_on (device 32 0)))));
    [wf_concrete | vm_compute; reflexivity].
Defined.
